(** * Climb-performance envelope of [main.py]

    A shallow embedding of the numeric core of the Dash callback
    [update_output] (src/main.py, lines 93-126) and of the plot assembly
    that follows it (lines 128-173).

    Numbers.  The program computes with Python floats and NumPy [float64]
    arrays.  The embedding keeps the four kinds of value a [float64] can
    take (finite, the two infinities, not-a-number) together with the rules
    NumPy follows for them (division by zero, [inf - inf], [arcsin] outside
    [-1, 1], ...), and takes the finite values to be real numbers with exact
    arithmetic: rounding to 53 bits, overflow and underflow are not
    modelled.  Zero is the positive zero; the program never produces a
    negative zero on the paths studied here.  The module [Binary64] at the
    end of the definitions evaluates line 114 in the reference scenario
    with the kernel's binary64 numbers, as a check of the idealisation. *)

From Stdlib Require Import Reals Lra Lia List ZArith Sorted Floats Uint63.
From Stdlib Require String DecimalString DecimalNat DecimalZ.
Import ListNotations.

Local Open Scope R_scope.

(** ** NumPy scalars *)

Module Np.

Inductive float64 : Type :=
| Fin (x : R)
| PInf
| NInf
| NaN.

(** Sign of a real, as a three-way comparison with zero. *)
Definition Rsgn (x : R) : comparison :=
  match total_order_T x 0 with
  | inleft (left _) => Lt
  | inleft (right _) => Eq
  | inright _ => Gt
  end.

(** The infinity of a given sign; [0 * inf] and [0 / 0] are not-a-number. *)
Definition inf_of (c : comparison) : float64 :=
  match c with
  | Gt => PInf
  | Lt => NInf
  | Eq => NaN
  end.

Definition opp (a : float64) : float64 :=
  match a with
  | Fin x => Fin (- x)
  | PInf => NInf
  | NInf => PInf
  | NaN => NaN
  end.

Definition add (a b : float64) : float64 :=
  match a, b with
  | NaN, _ | _, NaN => NaN
  | Fin x, Fin y => Fin (x + y)
  | Fin _, PInf | PInf, Fin _ | PInf, PInf => PInf
  | Fin _, NInf | NInf, Fin _ | NInf, NInf => NInf
  | PInf, NInf | NInf, PInf => NaN
  end.

Definition sub (a b : float64) : float64 := add a (opp b).

Definition mul (a b : float64) : float64 :=
  match a, b with
  | NaN, _ | _, NaN => NaN
  | Fin x, Fin y => Fin (x * y)
  | Fin x, PInf | PInf, Fin x => inf_of (Rsgn x)
  | Fin x, NInf | NInf, Fin x => inf_of (CompOpp (Rsgn x))
  | PInf, PInf | NInf, NInf => PInf
  | PInf, NInf | NInf, PInf => NInf
  end.

(** NumPy's true division: a finite value over zero is an infinity of the
    sign of the numerator (with a RuntimeWarning, not an exception), [0/0]
    is not-a-number. *)
Definition div (a b : float64) : float64 :=
  match a, b with
  | NaN, _ | _, NaN => NaN
  | Fin x, Fin y =>
      if Req_dec_T y 0 then inf_of (Rsgn x) else Fin (x / y)
  | Fin _, PInf | Fin _, NInf => Fin 0
  | PInf, Fin y => if Rlt_dec y 0 then NInf else PInf
  | NInf, Fin y => if Rlt_dec y 0 then PInf else NInf
  | PInf, PInf | PInf, NInf | NInf, PInf | NInf, NInf => NaN
  end.

(** [np.sqrt] *)
Definition sqrt (a : float64) : float64 :=
  match a with
  | Fin x => if Rlt_dec x 0 then NaN else Fin (R_sqrt.sqrt x)
  | PInf => PInf
  | NInf | NaN => NaN
  end.

(** [a ** n] for an integer literal [n] *)
Definition powi (a : float64) (n : nat) : float64 :=
  match n with
  | O => Fin 1
  | S _ =>
      match a with
      | Fin x => Fin (x ^ n)
      | PInf => PInf
      | NInf => if Nat.even n then PInf else NInf
      | NaN => NaN
      end
  end.

(** [a ** p] for a positive literal [p] that is not an integer *)
Definition powr (a : float64) (p : R) : float64 :=
  match a with
  | Fin x =>
      if Rlt_dec x 0 then NaN
      else if Req_dec_T x 0 then Fin 0
      else Fin (Rpower x p)
  | PInf | NInf => PInf
  | NaN => NaN
  end.

(** [np.arcsin]: outside [-1, 1] the result is not-a-number (with a
    RuntimeWarning, not an exception). *)
Definition arcsin (a : float64) : float64 :=
  match a with
  | Fin x => if Rlt_dec 1 (Rabs x) then NaN else Fin (asin x)
  | PInf | NInf | NaN => NaN
  end.

(** [0 <= a], as NumPy's comparison decides it: false on not-a-number. *)
Definition nonneg (a : float64) : Prop :=
  match a with
  | Fin x => 0 <= x
  | PInf => True
  | NInf | NaN => False
  end.

(** One-dimensional arrays, with the three shapes of broadcasting the
    program uses.  All arrays of the program derive from one 20-element
    sweep, so the element-wise case never meets unequal lengths. *)
Definition ndarray : Type := list float64.

Definition scalar_array (op : float64 -> float64 -> float64)
  (s : float64) (a : ndarray) : ndarray :=
  map (fun x => op s x) a.

Definition array_scalar (op : float64 -> float64 -> float64)
  (a : ndarray) (s : float64) : ndarray :=
  map (fun x => op x s) a.

Definition array_array (op : float64 -> float64 -> float64)
  (a b : ndarray) : ndarray :=
  map (fun p => op (fst p) (snd p)) (combine a b).

(** [np.linspace(start, stop, num)] with the default [endpoint=True]:
    [arange(num) * step + start] with [step = (stop - start) / (num - 1)],
    the last element then overwritten with [stop]. *)
Definition linspace (start stop : R) (num : nat) : ndarray :=
  match num with
  | O => []
  | S O => [Fin start]
  | S div =>
      let step := (stop - start) / IZR (Z.of_nat div) in
      let y := map (fun i => Fin (IZR (Z.of_nat i) * step + start)) (seq 0 num) in
      firstn div y ++ [Fin stop]
  end.

End Np.

(** ** Exceptions *)

(** The only exception the numeric core can raise on numeric inputs: the
    division of one Python scalar by another that is zero.  (NumPy's array
    divisions warn and produce [inf] or [nan] instead.) *)
Inductive exn : Type :=
| ZeroDivisionError.

Inductive result (A : Type) : Type :=
| Ok (a : A)
| Raise (e : exn).

Arguments Ok {A} a.
Arguments Raise {A} e.

Definition bind {A B : Type} (m : result A) (k : A -> result B) : result B :=
  match m with
  | Ok a => k a
  | Raise e => Raise e
  end.

Notation "x <- m ;; k" := (bind m (fun x => k))
  (at level 61, m at next level, right associativity).

(** A list comprehension whose body may raise: left to right, the first
    exception ends it. *)
Fixpoint mapM {A B : Type} (f : A -> result B) (l : list A) : result (list B) :=
  match l with
  | [] => Ok []
  | a :: l' =>
      b <- f a ;;
      bs <- mapM f l' ;;
      Ok (b :: bs)
  end.

(** [x / y] on Python scalars *)
Definition py_div (x y : R) : result R :=
  if Req_dec_T y 0 then Raise ZeroDivisionError else Ok (x / y).

(** ** The callback *)

Import Np.

(** The eight [State] values of the callback, as the form delivers them:
    finite numbers. *)
Record AircraftConfig : Type := {
  c_d0 : R;
  AR : R;
  e0 : R;
  w : R;
  bhp : R;
  area : R;
  prop_diameter : R;
  rpm : R
}.

(** The locals of [calculate_values], of which it returns
    [(v, roc, climb_angle)]. *)
Record Locals : Type := {
  c_d : ndarray;
  v : ndarray;
  d : ndarray;
  J : ndarray;
  prop_efficiency : ndarray;
  p_req : ndarray;
  shp : R;
  p_av : ndarray;
  roc : ndarray;
  climb_angle : ndarray
}.

(** Lines 98-102 *)
Definition density : R := 2.377 * / 10 ^ 3.
Definition density_5000ft : R := 2.048 * / 10 ^ 3.
Definition density_10000ft : R := 1.756 * / 10 ^ 3.
Definition density_15000ft : R := 1.496 * / 10 ^ 3.
Definition density_ratios : list R := [1; 0.86159; 0.738746; 0.62936].

(** Line 105 *)
Definition c_l : ndarray := linspace 0 1.3182 20.

(** Line 109 (the list is called [rpms] in the source; it holds the four
    densities) *)
Definition rpms : list R :=
  [density; density_5000ft; density_10000ft; density_15000ft].

(** Line 132 *)
Definition altitudes : list Z := [0; 5000; 10000; 15000]%Z.

Section Callback.

Variable cfg : AircraftConfig.

(** Line 107: [bhp *= 550] *)
Definition bhp_550 : R := bhp cfg * 550.

(** Lines 112-123, every local kept.  The two divisions of Python scalars
    (lines 114 and 118) are the places that can raise. *)
Definition calculate_values_locals (density density_ratio : R) : result Locals :=
  let c_d :=
    scalar_array add (Fin (c_d0 cfg))
      (array_scalar div (map (fun x => powi x 2) c_l)
         (Fin (3.14 * e0 cfg * AR cfg))) in
  q <- py_div (w cfg) (0.5 * density * area cfg) ;;
  let v :=
    scalar_array mul (Np.sqrt (Fin q))
      (scalar_array div (Fin 1) (map Np.sqrt c_l)) in
  let d :=
    scalar_array mul (Fin (0.5 * density * area cfg))
      (map (fun x => powi x 2) v) in
  let J := array_scalar div v (Fin (rpm cfg / 60 * prop_diameter cfg)) in
  let prop_efficiency :=
    array_scalar sub
      (array_array add
         (array_array sub
            (array_array add
               (scalar_array mul (Fin (-12.06)) (map (fun x => powi x 4) J))
               (scalar_array mul (Fin 27.19) (map (fun x => powi x 3) J)))
            (scalar_array mul (Fin 23.08) (map (fun x => powi x 2) J)))
         (scalar_array mul (Fin 9.281) J))
      (Fin 0.8122) in
  q' <- py_div (2 * w cfg) (area cfg * density) ;;
  let p_req :=
    scalar_array mul (mul (Fin (w cfg)) (Np.sqrt (Fin q')))
      (array_array div c_d (map (fun x => powr x 1.5) c_l)) in
  let shp := bhp_550 * density_ratio in
  let p_av := scalar_array mul (Fin shp) prop_efficiency in
  let roc := array_scalar div (array_array sub p_av p_req) (Fin (w cfg)) in
  let climb_angle := map arcsin (array_array div roc v) in
  Ok {| c_d := c_d; v := v; d := d; J := J;
        prop_efficiency := prop_efficiency; p_req := p_req; shp := shp;
        p_av := p_av; roc := roc; climb_angle := climb_angle |}.

Definition calculate_values (density density_ratio : R)
  : result (ndarray * ndarray * ndarray) :=
  l <- calculate_values_locals density density_ratio ;;
  Ok (v l, roc l, climb_angle l).

(** Line 126: one call per pair of [zip(rpms, density_ratios)], in order. *)
Definition results : result (list (ndarray * ndarray * ndarray)) :=
  mapM (fun p => calculate_values (fst p) (snd p)) (combine rpms density_ratios).

(** The same comprehension with every local kept, to speak of the
    quantities [calculate_values] computes and does not return. *)
Definition results_locals : result (list Locals) :=
  mapM (fun p => calculate_values_locals (fst p) (snd p))
    (combine rpms density_ratios).

End Callback.

(** Lines 128-173: two graphs per altitude, the rate-of-climb curve then the
    climb-angle curve, both against the velocity. *)
Inductive plot_kind : Type :=
| roc_plot
| climb_angle_plot.

Record Graph : Type := {
  graph_kind : plot_kind;
  graph_index : nat;
  graph_altitude : Z;
  graph_x : ndarray;
  graph_y : ndarray
}.

Fixpoint plots_from (i : nat)
  (rows : list (Z * (R * (ndarray * ndarray * ndarray)))) : list Graph :=
  match rows with
  | [] => []
  | (altitude, (_, (v, roc, climb_angle))) :: rows' =>
      {| graph_kind := roc_plot; graph_index := i;
         graph_altitude := altitude; graph_x := v; graph_y := roc |}
      :: {| graph_kind := climb_angle_plot; graph_index := i;
            graph_altitude := altitude; graph_x := v; graph_y := climb_angle |}
      :: plots_from (S i) rows'
  end.

(** What the callback returns: the empty string before the first click,
    otherwise a [Div] of graphs. *)
Inductive children : Type :=
| empty_string
| Div (plots : list Graph).

Definition update_output (n_clicks : Z) (cfg : AircraftConfig) : result children :=
  if (n_clicks =? 0)%Z then Ok empty_string
  else
    rs <- results cfg ;;
    Ok (Div (plots_from 0 (combine altitudes (combine density_ratios rs)))).

(** ** Inputs *)

(** The invariants the specification's data model places on an
    [AircraftConfig].  They are stated here to speak of "valid" inputs; the
    callback itself checks none of them. *)
Record valid_config (cfg : AircraftConfig) : Prop := {
  valid_c_d0 : 0 < c_d0 cfg;
  valid_AR : 0 < AR cfg;
  valid_e0 : 0 < e0 cfg <= 1;
  valid_w : 0 < w cfg;
  valid_bhp : 0 < bhp cfg;
  valid_area : 0 < area cfg;
  valid_prop_diameter : 0 < prop_diameter cfg;
  valid_rpm : 0 < rpm cfg
}.

(** The default values of the form (lines 35-70). *)
Definition reference_config : AircraftConfig :=
  {| c_d0 := 0.0317; AR := 5.71; e0 := 0.6; w := 2400; bhp := 180;
     area := 170; prop_diameter := 73 / 12; rpm := 2700 |}.

Definition with_bhp (cfg : AircraftConfig) (b : R) : AircraftConfig :=
  {| c_d0 := c_d0 cfg; AR := AR cfg; e0 := e0 cfg; w := w cfg; bhp := b;
     area := area cfg; prop_diameter := prop_diameter cfg; rpm := rpm cfg |}.

Definition with_w (cfg : AircraftConfig) (x : R) : AircraftConfig :=
  {| c_d0 := c_d0 cfg; AR := AR cfg; e0 := e0 cfg; w := x; bhp := bhp cfg;
     area := area cfg; prop_diameter := prop_diameter cfg; rpm := rpm cfg |}.

(** ** One sample at a time

    Every array of [calculate_values] is the sweep [c_l] mapped through a
    function of one sample.  These functions are the element-wise reading
    of lines 113-122. *)

Section Pointwise.

Variable cfg : AircraftConfig.
Variables rho sigma : R.

Definition c_d_at (x : float64) : float64 :=
  add (Fin (c_d0 cfg)) (div (powi x 2) (Fin (3.14 * e0 cfg * AR cfg))).

Definition v_at (x : float64) : float64 :=
  mul (Np.sqrt (Fin (w cfg / (0.5 * rho * area cfg))))
      (div (Fin 1) (Np.sqrt x)).

Definition d_at (x : float64) : float64 :=
  mul (Fin (0.5 * rho * area cfg)) (powi (v_at x) 2).

Definition J_at (x : float64) : float64 :=
  div (v_at x) (Fin (rpm cfg / 60 * prop_diameter cfg)).

(** Line 117 on one advance ratio. *)
Definition quartic (j : float64) : float64 :=
  sub
    (add
       (sub
          (add (mul (Fin (-12.06)) (powi j 4)) (mul (Fin 27.19) (powi j 3)))
          (mul (Fin 23.08) (powi j 2)))
       (mul (Fin 9.281) j))
    (Fin 0.8122).

Definition prop_efficiency_at (x : float64) : float64 := quartic (J_at x).

Definition p_req_at (x : float64) : float64 :=
  mul (mul (Fin (w cfg)) (Np.sqrt (Fin (2 * w cfg / (area cfg * rho)))))
      (div (c_d_at x) (powr x 1.5)).

Definition p_av_at (x : float64) : float64 :=
  mul (Fin (bhp_550 cfg * sigma)) (prop_efficiency_at x).

Definition roc_at (x : float64) : float64 :=
  div (sub (p_av_at x) (p_req_at x)) (Fin (w cfg)).

Definition ratio_at (x : float64) : float64 := div (roc_at x) (v_at x).

Definition climb_angle_at (x : float64) : float64 := arcsin (ratio_at x).

Definition locals_at : Locals :=
  {| c_d := map c_d_at c_l;
     v := map v_at c_l;
     d := map d_at c_l;
     J := map J_at c_l;
     prop_efficiency := map prop_efficiency_at c_l;
     p_req := map p_req_at c_l;
     shp := bhp_550 cfg * sigma;
     p_av := map p_av_at c_l;
     roc := map roc_at c_l;
     climb_angle := map climb_angle_at c_l |}.

End Pointwise.

(** The sweep, sample by sample. *)
Definition sample (i : nat) : R := IZR (Z.of_nat i) * (1.3182 / 19).

(** The table the comprehension of line 126 walks. *)
Definition bands : list (R * R) := combine rpms density_ratios.

(** What [calculate_values] returns of its locals (line 123). *)
Definition returned (l : Locals) : ndarray * ndarray * ndarray :=
  (v l, roc l, climb_angle l).

(** The factor of the velocity that does not depend on the sample:
    [sqrt(w / (0.5 * density * area))] of line 114. *)
Definition v_scale (cfg : AircraftConfig) (rho : R) : R :=
  R_sqrt.sqrt (w cfg / (0.5 * rho * area cfg)).

(** Line 117 on a finite advance ratio. *)
Definition quartic_R (j : R) : R :=
  -12.06 * j ^ 4 + 27.19 * j ^ 3 - 23.08 * j ^ 2 + 9.281 * j - 0.8122.

(** The reference value of the specification's scenario. *)
Definition reference_velocity : R :=
  R_sqrt.sqrt (2400 / (0.5 * 2.377e-3 * 170)) * (1 / R_sqrt.sqrt 0.0694).

(** The reference scenario with [weight = 0]. *)
Definition zero_weight_config : AircraftConfig := with_w reference_config 0.

(** The values of lines 113-122 at one sample when all of them are finite:
    the reals that the theorems below show the arrays to hold at a sample
    [c > 0] of a valid configuration. *)
Section ClosedForm.

Variable cfg : AircraftConfig.
Variables rho sigma c : R.

Definition velocity_R : R := v_scale cfg rho * (1 / R_sqrt.sqrt c).

Definition advance_ratio_R : R :=
  velocity_R / (rpm cfg / 60 * prop_diameter cfg).

Definition efficiency_R : R := quartic_R advance_ratio_R.

Definition drag_coefficient_R : R :=
  c_d0 cfg + c ^ 2 / (3.14 * e0 cfg * AR cfg).

Definition power_required_R : R :=
  w cfg * R_sqrt.sqrt (2 * w cfg / (area cfg * rho))
  * (drag_coefficient_R / Rpower c 1.5).

Definition power_available_R : R := bhp_550 cfg * sigma * efficiency_R.

Definition rate_of_climb_R : R :=
  (power_available_R + - power_required_R) / w cfg.

Definition climb_ratio_R : R := rate_of_climb_R / velocity_R.

End ClosedForm.

(** The configuration with the rated power doubled, all else fixed. *)
Definition doubled_power (cfg : AircraftConfig) : AircraftConfig :=
  with_bhp cfg (2 * bhp cfg).

(** ** Line 114 in binary64

    The velocity array of the reference scenario at sea level, computed
    with IEEE 754 binary64 operations in the order NumPy applies them. *)

#[local] Set Warnings "-inexact-float".

Module Binary64.

Local Open Scope float_scope.

Definition density : float := 2.377 * 0.001.

Definition linspace (start stop : float) (num : nat) : list float :=
  match num with
  | O => []
  | S O => [start]
  | S div =>
      let step := (stop - start) / of_uint63 (Uint63.of_Z (Z.of_nat div)) in
      let y :=
        map (fun i => of_uint63 (Uint63.of_Z (Z.of_nat i)) * step + start)
            (seq 0 num) in
      firstn div y ++ [stop]
  end.

Definition c_l : list float := linspace 0 1.3182 20.

Definition v (w area density : float) : list float :=
  map (fun x => PrimFloat.sqrt (w / (0.5 * density * area)) * x)
      (map (fun x => 1 / x) (map PrimFloat.sqrt c_l)).

Definition reference_velocity : float :=
  PrimFloat.sqrt (2400 / (0.5 * 2.377e-3 * 170)) * (1 / PrimFloat.sqrt 0.0694).

Fixpoint decreasing (l : list float) : bool :=
  match l with
  | x :: (y :: _) as l' => PrimFloat.ltb y x && decreasing l'
  | _ => true
  end.

Definition within (tolerance x y : float) : bool :=
  PrimFloat.ltb (PrimFloat.abs (x - y)) tolerance.

End Binary64.

(** ** Identifiers and titles of the graphs

    The f-strings of lines 135, 138, 141, 154, 157 and 160.  [str] is
    Python's decimal rendering of an integer. *)

Module Ids.

Import String.
Local Open Scope string_scope.

Definition str_nat (i : nat) : string :=
  DecimalString.NilEmpty.string_of_uint (Nat.to_uint i).

Definition str_Z (n : Z) : string :=
  DecimalString.NilEmpty.string_of_int (Z.to_int n).

Definition graph_id (g : Graph) : string :=
  match graph_kind g with
  | roc_plot => "roc-plot-" ++ str_nat (graph_index g)
  | climb_angle_plot => "climb-angle-plot-" ++ str_nat (graph_index g)
  end.

Definition graph_title (g : Graph) : string :=
  match graph_kind g with
  | roc_plot => "Rate of Climb at " ++ str_Z (graph_altitude g) ++ " ft"
  | climb_angle_plot => "Climb Angle at " ++ str_Z (graph_altitude g) ++ " ft"
  end.

(** The identifiers and titles of the eight graphs of four altitudes. *)
Definition eight_ids : list string :=
  ["roc-plot-0"; "climb-angle-plot-0"; "roc-plot-1"; "climb-angle-plot-1";
   "roc-plot-2"; "climb-angle-plot-2"; "roc-plot-3"; "climb-angle-plot-3"].

Definition eight_titles : list string :=
  ["Rate of Climb at 0 ft"; "Climb Angle at 0 ft";
   "Rate of Climb at 5000 ft"; "Climb Angle at 5000 ft";
   "Rate of Climb at 10000 ft"; "Climb Angle at 10000 ft";
   "Rate of Climb at 15000 ft"; "Climb Angle at 15000 ft"].

End Ids.

(** * The spreadsheet viewer of [app.py]

    [toggle_modal] (lines 129-132) and [format_data] (lines 12-18). *)

Module App.

(** Python's truth value of a click counter: [None] and [0] are false. *)
Definition truthy (n : option Z) : bool :=
  match n with
  | None => false
  | Some z => negb (z =? 0)%Z
  end.

(** Lines 129-132.  [n1 or n2] is true as soon as one counter is. *)
Definition toggle_modal (n1 n2 : option Z) (is_open : bool) : bool :=
  if (truthy n1 || truthy n2)%bool then negb is_open else is_open.

(** The state of a modal after a run of callbacks, each with the counters
    it receives. *)
Definition run_modal (calls : list (option Z * option Z)) (is_open : bool)
  : bool :=
  fold_left (fun s p => toggle_modal (fst p) (snd p) s) calls is_open.

(** ** Data frames

    A frame is its number of rows and its columns in order.  A column of
    dtype [float] or [int] holds numbers or missing values; any other
    column holds arbitrary values or missing values.  Column labels are
    unique, as [read_excel] makes them.  The numbers, the other objects and
    the rendering ['{:.3g}'.format] are parameters. *)
Section Frames.

Variable number : Type.
Variable other : Type.
Variable format_3g : number -> String.string.

Inductive value : Type :=
| Num (x : number)
| Str (s : String.string)
| Other (o : other).

Inductive column : Type :=
| NumCol (label : String.string) (cells : list (option number))
| ObjCol (label : String.string) (cells : list (option value)).

Record DataFrame : Type := {
  nrows : nat;
  columns : list column
}.

Definition label_of (c : column) : String.string :=
  match c with
  | NumCol l _ | ObjCol l _ => l
  end.

(** [pd.notna] of the cells of a column, row by row. *)
Definition present (c : column) : list bool :=
  match c with
  | NumCol _ cells => map (fun x => match x with Some _ => true | None => false end) cells
  | ObjCol _ cells => map (fun x => match x with Some _ => true | None => false end) cells
  end.

Definition height (c : column) : nat := length (present c).

Definition well_formed (df : DataFrame) : Prop :=
  Forall (fun c => height c = nrows df) (columns df).

(** [count > 0] of [dropna(how='all')]: some cell of the column is
    present. *)
Definition some_present (c : column) : bool := existsb (fun b => b) (present c).

(** Line 13: [dropna(axis=1, how='all')]. *)
Definition dropna_columns (df : DataFrame) : DataFrame :=
  {| nrows := nrows df; columns := filter some_present (columns df) |}.

(** Whether row [r] has a present cell in some column. *)
Definition row_present (cols : list column) (r : nat) : bool :=
  existsb (fun c => nth r (present c) false) cols.

Definition row_mask (df : DataFrame) : list bool :=
  map (row_present (columns df)) (seq 0 (nrows df)).

(** The elements of a list at the positions a mask keeps. *)
Fixpoint select {A : Type} (mask : list bool) (l : list A) : list A :=
  match mask, l with
  | b :: mask', a :: l' =>
      if b then a :: select mask' l' else select mask' l'
  | _, _ => []
  end.

Definition select_rows (mask : list bool) (c : column) : column :=
  match c with
  | NumCol l cells => NumCol l (select mask cells)
  | ObjCol l cells => ObjCol l (select mask cells)
  end.

(** Line 14: [dropna(axis=0, how='all')]. *)
Definition dropna_rows (df : DataFrame) : DataFrame :=
  let mask := row_mask df in
  {| nrows := length (filter (fun b => b) mask);
     columns := map (select_rows mask) (columns df) |}.

(** Lines 15-16: each column of dtype float or int becomes a column of
    strings, the empty string for a missing value. *)
Definition format_column (c : column) : column :=
  match c with
  | NumCol l cells =>
      ObjCol l
        (map (fun x =>
                match x with
                | Some n => Some (Str (format_3g n))
                | None => Some (Str String.EmptyString)
                end) cells)
  | ObjCol _ _ => c
  end.

(** Line 17: [fillna('')]. *)
Definition fillna_column (c : column) : column :=
  match c with
  | NumCol l cells =>
      ObjCol l
        (map (fun x =>
                match x with
                | Some n => Some (Num n)
                | None => Some (Str String.EmptyString)
                end) cells)
  | ObjCol l cells =>
      ObjCol l
        (map (fun x =>
                match x with
                | Some v => Some v
                | None => Some (Str String.EmptyString)
                end) cells)
  end.

Definition map_columns (f : column -> column) (df : DataFrame) : DataFrame :=
  {| nrows := nrows df; columns := map f (columns df) |}.

(** Lines 12-18. *)
Definition format_data (df : DataFrame) : DataFrame :=
  map_columns fillna_column
    (map_columns format_column (dropna_rows (dropna_columns df))).

(** The cell of a column at a row, as [to_dict('records')] reads it. *)
Definition cell_at (c : column) (r : nat) : option value :=
  match c with
  | NumCol _ cells =>
      match nth r cells None with
      | Some n => Some (Num n)
      | None => None
      end
  | ObjCol _ cells => nth r cells None
  end.

(** [df.to_dict('records')]: one record per row, a key per column. *)
Definition to_records (df : DataFrame)
  : list (list (String.string * option value)) :=
  map (fun r => map (fun c => (label_of c, cell_at c r)) (columns df))
      (seq 0 (nrows df)).

(** What lines 23-25 give the [DataTable]: the [name] and [id] of each
    column and the records. *)
Record DataTable : Type := {
  table_columns : list (String.string * String.string);
  table_data : list (list (String.string * option value))
}.

(** Lines 21-25. *)
Definition create_table (df : DataFrame) : DataTable :=
  let df := format_data df in
  {| table_columns := map (fun c => (label_of c, label_of c)) (columns df);
     table_data := to_records df |}.

End Frames.

Arguments Num {number other} x.
Arguments Str {number other} s.
Arguments Other {number other} o.
Arguments NumCol {number other} label cells.
Arguments ObjCol {number other} label cells.
Arguments nrows {number other} d.
Arguments columns {number other} d.
Arguments label_of {number other} c.
Arguments present {number other} c.
Arguments height {number other} c.
Arguments well_formed {number other} df.
Arguments some_present {number other} c.
Arguments dropna_columns {number other} df.
Arguments row_present {number other} cols r.
Arguments row_mask {number other} df.
Arguments select_rows {number other} mask c.
Arguments dropna_rows {number other} df.
Arguments format_column {number other} format_3g c.
Arguments fillna_column {number other} c.
Arguments format_data {number other} format_3g df.
Arguments cell_at {number other} c r.
Arguments to_records {number other} df.
Arguments table_columns {number other} d.
Arguments table_data {number other} d.
Arguments create_table {number other} format_3g df.

End App.

(** A small frame for examples: a numeric column with missing values, a
    column without any value, and a last row without any value.  On
    integers below 1000 in magnitude ['{:.3g}'.format] is the decimal
    rendering. *)
Module Samples.

Import String.
Local Open Scope string_scope.

Definition sample_frame : App.DataFrame Z unit :=
  {| App.nrows := 3;
     App.columns :=
       [App.NumCol "mass" [Some 1%Z; None; None];
        App.ObjCol "note" [None; None; None];
        App.ObjCol "part" [Some (App.Str "wing"); Some (App.Other tt); None]] |}.

End Samples.

(** ** Theorems *)

Lemma Rsgn_pos (x : R) : 0 < x -> Rsgn x = Gt.
Proof.
  intros H. unfold Rsgn.
  destruct (total_order_T x 0) as [[Hlt | Heq] | Hgt]; try lra; reflexivity.
Qed.

Lemma Rsgn_neg (x : R) : x < 0 -> Rsgn x = Lt.
Proof.
  intros H. unfold Rsgn.
  destruct (total_order_T x 0) as [[Hlt | Heq] | Hgt]; try lra; reflexivity.
Qed.

Lemma Rsgn_zero : Rsgn 0 = Eq.
Proof.
  unfold Rsgn.
  destruct (total_order_T 0 0) as [[Hlt | Heq] | Hgt]; try lra; reflexivity.
Qed.

(** Decide the comparisons of reals that guard a branch. *)
Ltac dec_R :=
  repeat match goal with
    | |- context [Req_dec_T ?a ?b] => destruct (Req_dec_T a b); try lra
    | |- context [Rlt_dec ?a ?b] => destruct (Rlt_dec a b); try lra
    end.

Lemma c_l_samples : c_l = map (fun i => Fin (sample i)) (seq 0 20).
Proof.
  unfold c_l, linspace, sample.
  cbn [seq map firstn app].
  repeat (f_equal; [f_equal; cbn [Z.of_nat Pos.of_succ_nat Pos.succ]; lra | ]).
  do 2 f_equal. cbn [Z.of_nat Pos.of_succ_nat Pos.succ]. lra.
Qed.

Lemma c_l_length : length c_l = 20%nat.
Proof. rewrite c_l_samples, length_map, length_seq. reflexivity. Qed.

Lemma c_l_nth (i : nat) :
  (i < 20)%nat -> nth_error c_l i = Some (Fin (sample i)).
Proof.
  intros Hi. rewrite c_l_samples, nth_error_map, nth_error_seq.
  destruct (Nat.ltb_spec i 20) as [_ | Hge]; [reflexivity | lia].
Qed.

Lemma sample_0 : sample 0 = 0.
Proof. unfold sample. simpl. lra. Qed.

Lemma sample_pos (i : nat) : (0 < i)%nat -> 0 < sample i.
Proof.
  intros Hi. unfold sample.
  apply Rmult_lt_0_compat; [| lra].
  apply IZR_lt. lia.
Qed.

Lemma sample_lt (i j : nat) : (i < j)%nat -> sample i < sample j.
Proof.
  intros Hij. unfold sample.
  apply Rmult_lt_compat_r; [lra |].
  apply IZR_lt. lia.
Qed.

(** *** The arrays of [calculate_values], element by element *)

Lemma py_div_ok (x y : R) : y <> 0 -> py_div x y = Ok (x / y).
Proof. intros H. unfold py_div. destruct (Req_dec_T y 0); [contradiction | reflexivity]. Qed.

Lemma py_div_raise (x : R) : py_div x 0 = Raise ZeroDivisionError.
Proof. unfold py_div. destruct (Req_dec_T 0 0); [reflexivity | lra]. Qed.

Lemma calculate_values_locals_pointwise (cfg : AircraftConfig) (rho sigma : R) :
  area cfg <> 0 -> rho <> 0 ->
  calculate_values_locals cfg rho sigma = Ok (locals_at cfg rho sigma).
Proof.
  intros Harea Hrho.
  unfold calculate_values_locals, locals_at.
  rewrite py_div_ok by (intros H; apply Rmult_integral in H; destruct H as [H | H]; lra).
  rewrite py_div_ok by (intros H; apply Rmult_integral in H; destruct H as [H | H]; lra).
  cbn [bind].
  unfold scalar_array, array_scalar, array_array.
  unfold climb_angle_at, ratio_at, roc_at, p_av_at, p_req_at,
    prop_efficiency_at, quartic, J_at, d_at, v_at, c_d_at.
  generalize c_l. intros l.
  do 2 f_equal.
  all: induction l as [| a l IH]; cbn [map combine fst snd];
    [reflexivity | f_equal; exact IH].
Qed.

Lemma calculate_values_locals_raise (cfg : AircraftConfig) (rho sigma : R) :
  area cfg = 0 ->
  calculate_values_locals cfg rho sigma = Raise ZeroDivisionError.
Proof.
  intros Harea. unfold calculate_values_locals.
  replace (0.5 * rho * area cfg) with 0 by (rewrite Harea; lra).
  rewrite py_div_raise. reflexivity.
Qed.

(** *** The comprehension of line 126 *)

Lemma mapM_fmap {A B C : Type} (f : A -> result B) (g : B -> C) (l : list A) :
  mapM (fun a => b <- f a ;; Ok (g b)) l = (bs <- mapM f l ;; Ok (map g bs)).
Proof.
  induction l as [| a l IH]; cbn [mapM]; [reflexivity |].
  destruct (f a) as [b | e]; cbn [bind]; [| reflexivity].
  rewrite IH. destruct (mapM f l); reflexivity.
Qed.

Lemma results_of_locals (cfg : AircraftConfig) :
  results cfg = (ls <- results_locals cfg ;; Ok (map returned ls)).
Proof.
  unfold results, results_locals, calculate_values.
  apply (mapM_fmap (fun p => calculate_values_locals cfg (fst p) (snd p)) returned).
Qed.

Lemma bands_table :
  bands = [(density, 1); (density_5000ft, 0.86159);
           (density_10000ft, 0.738746); (density_15000ft, 0.62936)].
Proof. reflexivity. Qed.

Lemma bands_length : length bands = 4%nat.
Proof. reflexivity. Qed.

Lemma bands_density_pos (k : nat) (rho sigma : R) :
  nth_error bands k = Some (rho, sigma) -> 0 < rho /\ 0 < sigma.
Proof.
  rewrite bands_table.
  unfold density, density_5000ft, density_10000ft, density_15000ft.
  do 4 (destruct k as [| k]; [cbn; intros [= <- <-]; lra |]).
  destruct k; discriminate.
Qed.

Lemma results_locals_ok (cfg : AircraftConfig) :
  area cfg <> 0 ->
  results_locals cfg = Ok (map (fun p => locals_at cfg (fst p) (snd p)) bands).
Proof.
  intros Harea. unfold results_locals. fold bands. rewrite bands_table.
  cbn [mapM map fst snd].
  rewrite !calculate_values_locals_pointwise
    by (assumption ||
        unfold density, density_5000ft, density_10000ft, density_15000ft; lra).
  reflexivity.
Qed.

Lemma results_ok (cfg : AircraftConfig) :
  area cfg <> 0 ->
  results cfg =
  Ok (map (fun p => returned (locals_at cfg (fst p) (snd p))) bands).
Proof.
  intros Harea. rewrite results_of_locals, results_locals_ok by assumption.
  cbn [bind]. rewrite map_map. reflexivity.
Qed.

Lemma results_raise (cfg : AircraftConfig) :
  area cfg = 0 -> results cfg = Raise ZeroDivisionError.
Proof.
  intros Harea. rewrite results_of_locals. unfold results_locals.
  fold bands. rewrite bands_table. cbn [mapM fst snd].
  rewrite calculate_values_locals_raise by assumption. reflexivity.
Qed.

(** Every array of one altitude has the 20 elements of the sweep. *)
Lemma locals_at_lengths (cfg : AircraftConfig) (rho sigma : R) :
  let l := locals_at cfg rho sigma in
  length (v l) = 20%nat /\ length (roc l) = 20%nat /\
  length (climb_angle l) = 20%nat /\ length (p_av l) = 20%nat.
Proof.
  cbn [locals_at v roc climb_angle p_av].
  rewrite !length_map, c_l_length. auto.
Qed.

(** *** Arithmetic on finite values *)

Lemma sqrt_Fin (x : R) : 0 <= x -> Np.sqrt (Fin x) = Fin (R_sqrt.sqrt x).
Proof. intros H. unfold Np.sqrt. dec_R. reflexivity. Qed.

Lemma div_Fin (x y : R) : y <> 0 -> div (Fin x) (Fin y) = Fin (x / y).
Proof. intros H. unfold div. destruct (Req_dec_T y 0); [contradiction | reflexivity]. Qed.

Lemma div_Fin_zero (x : R) : 0 < x -> div (Fin x) (Fin 0) = PInf.
Proof.
  intros H. unfold div. destruct (Req_dec_T 0 0); [| lra].
  rewrite Rsgn_pos by assumption. reflexivity.
Qed.

Lemma mul_Fin_PInf (x : R) : 0 < x -> mul (Fin x) PInf = PInf.
Proof. intros H. cbn. rewrite Rsgn_pos by assumption. reflexivity. Qed.

Lemma v_scale_pos (cfg : AircraftConfig) (rho : R) :
  0 < w cfg -> 0 < area cfg -> 0 < rho -> 0 < v_scale cfg rho.
Proof.
  intros Hw Ha Hr. unfold v_scale. apply sqrt_lt_R0.
  apply Rdiv_lt_0_compat; [assumption |].
  apply Rmult_lt_0_compat; [lra | assumption].
Qed.

(** Line 114 at a positive sample: a finite, positive velocity. *)
Lemma v_at_pos (cfg : AircraftConfig) (rho c : R) :
  0 <= w cfg / (0.5 * rho * area cfg) -> 0 < c ->
  v_at cfg rho (Fin c) = Fin (v_scale cfg rho * (1 / R_sqrt.sqrt c)).
Proof.
  intros Hq Hc. unfold v_at, v_scale.
  rewrite sqrt_Fin by assumption.
  rewrite sqrt_Fin by lra.
  rewrite div_Fin by (apply Rgt_not_eq, sqrt_lt_R0; assumption).
  reflexivity.
Qed.

(** Line 114 at the sample [c_l = 0]: [1 / sqrt(0)] is [inf]. *)
Lemma v_at_zero (cfg : AircraftConfig) (rho : R) :
  0 < w cfg -> 0 < area cfg -> 0 < rho ->
  v_at cfg rho (Fin 0) = PInf.
Proof.
  intros Hw Ha Hr.
  pose proof (v_scale_pos cfg rho Hw Ha Hr) as Hs.
  unfold v_at. fold (v_scale cfg rho) in *.
  assert (Hq : 0 < w cfg / (0.5 * rho * area cfg)).
  { apply Rdiv_lt_0_compat; [assumption |].
    apply Rmult_lt_0_compat; [lra | assumption]. }
  rewrite sqrt_Fin by lra.
  rewrite sqrt_Fin by lra.
  rewrite sqrt_0, div_Fin_zero by lra.
  apply mul_Fin_PInf. exact Hs.
Qed.

Lemma reference_config_valid : valid_config reference_config.
Proof. constructor; cbn; lra. Qed.

Lemma valid_area_nonzero (cfg : AircraftConfig) :
  valid_config cfg -> area cfg <> 0.
Proof. intros [_ _ _ _ _ Ha _ _]. lra. Qed.

(** The velocities of one altitude: [inf] at the sample [c_l = 0], finite
    and positive at the nineteen others. *)
Lemma velocities_shape (cfg : AircraftConfig) (rho : R) :
  0 < w cfg -> 0 < area cfg -> 0 < rho ->
  map (v_at cfg rho) c_l =
  PInf :: map (fun i => Fin (v_scale cfg rho * (1 / R_sqrt.sqrt (sample i))))
              (seq 1 19).
Proof.
  intros Hw Ha Hr. rewrite c_l_samples.
  change (seq 0 20) with (0%nat :: seq 1 19). cbn [map].
  rewrite sample_0, v_at_zero by assumption. f_equal.
  rewrite map_map. apply map_ext_in. intros i Hi.
  apply in_seq in Hi. apply v_at_pos.
  - apply Rlt_le, Rdiv_lt_0_compat; [assumption |].
    apply Rmult_lt_0_compat; [lra | assumption].
  - apply sample_pos. lia.
Qed.

Lemma velocity_value_pos (cfg : AircraftConfig) (rho : R) (i : nat) :
  0 < w cfg -> 0 < area cfg -> 0 < rho -> (0 < i)%nat ->
  0 < v_scale cfg rho * (1 / R_sqrt.sqrt (sample i)).
Proof.
  intros Hw Ha Hr Hi.
  apply Rmult_lt_0_compat; [apply v_scale_pos; assumption |].
  apply Rdiv_lt_0_compat; [lra |].
  apply sqrt_lt_R0, sample_pos, Hi.
Qed.




(** *** No validation of the inputs *)



(** *** Reading a successful call back *)

Lemma calculate_values_locals_inv (cfg : AircraftConfig) (rho sigma : R) (l : Locals) :
  calculate_values_locals cfg rho sigma = Ok l ->
  area cfg <> 0 /\ rho <> 0 /\ l = locals_at cfg rho sigma.
Proof.
  intros H.
  destruct (Req_dec_T (0.5 * rho * area cfg) 0) as [Hz | Hnz].
  - unfold calculate_values_locals in H. rewrite Hz, py_div_raise in H.
    discriminate.
  - assert (Ha : area cfg <> 0) by (intros E; apply Hnz; rewrite E; lra).
    assert (Hr : rho <> 0) by (intros E; apply Hnz; rewrite E; lra).
    rewrite calculate_values_locals_pointwise in H by assumption.
    injection H as <-. auto.
Qed.

(** *** Drag polar *)



(** *** Propeller efficiency *)

Lemma quartic_Fin (j : R) : quartic (Fin j) = Fin (quartic_R j).
Proof.
  unfold quartic, quartic_R, sub. cbn [powi mul add opp]. f_equal.
Qed.


(** *** The altitude table *)

(** C7.  The comprehension of line 126 walks the four rows
    (2.377e-3, 1), (2.048e-3, 0.86159), (1.756e-3, 0.738746),
    (1.496e-3, 0.62936) in this order, and the plot loop of line 132 pairs
    its results with the altitudes 0, 5000, 10000, 15000, ascending.  The
    density ratio is a literal of its own (the second one is not the
    quotient of the two densities); it enters only [shp], hence [p_av],
    while [c_d], [v], [d], [J], [prop_efficiency] and [p_req] are the same
    whatever the ratio and are computed from the density. *)
Theorem four_bands_in_order :
  altitudes = [0; 5000; 10000; 15000]%Z /\
  StronglySorted Z.lt altitudes /\
  Forall2 (fun p q => fst p = fst q /\ snd p = snd q) bands
    [(2.377e-3, 1); (2.048e-3, 0.86159);
     (1.756e-3, 0.738746); (1.496e-3, 0.62936)] /\
  nth 1 density_ratios 0 <> density_5000ft / density /\
  (forall cfg,
     results cfg = mapM (fun p => calculate_values cfg (fst p) (snd p)) bands) /\
  (forall cfg n_clicks,
     n_clicks <> 0%Z -> area cfg <> 0 ->
     exists plots,
       update_output n_clicks cfg = Ok (Div plots) /\
       map graph_altitude plots =
         [0; 0; 5000; 5000; 10000; 10000; 15000; 15000]%Z /\
       map graph_x plots =
         flat_map (fun p => [map (v_at cfg (fst p)) c_l;
                             map (v_at cfg (fst p)) c_l]) bands) /\
  (forall cfg rho sigma sigma' l l',
     calculate_values_locals cfg rho sigma = Ok l ->
     calculate_values_locals cfg rho sigma' = Ok l' ->
     c_d l = c_d l' /\ v l = v l' /\ d l = d l' /\ J l = J l' /\
     prop_efficiency l = prop_efficiency l' /\ p_req l = p_req l') /\
  (forall cfg rho sigma l,
     calculate_values_locals cfg rho sigma = Ok l ->
     shp l = bhp cfg * 550 * sigma /\
     p_av l = map (mul (Fin (shp l))) (prop_efficiency l) /\
     v l = map (v_at cfg rho) c_l /\
     d l = map (d_at cfg rho) c_l /\
     p_req l = map (p_req_at cfg rho) c_l).
Proof.
  split; [reflexivity |].
  split; [repeat constructor |].
  split.
  { rewrite bands_table.
    unfold density, density_5000ft, density_10000ft, density_15000ft.
    repeat constructor; cbn [fst snd]; lra. }
  split.
  { unfold density_ratios, density_5000ft, density. cbn [nth].
    intros E.
    assert (E' : 0.86159 * (2.377 * / 10 ^ 3) = 2.048 * / 10 ^ 3).
    { rewrite E. field. lra. }
    lra. }
  split; [reflexivity |].
  split.
  { intros cfg n Hn Harea. unfold update_output.
    destruct (Z.eqb_spec n 0) as [E | _]; [contradiction |].
    rewrite results_ok by assumption. cbn [bind].
    eexists. split; [reflexivity |].
    rewrite bands_table. split; reflexivity. }
  split.
  { intros cfg rho sigma sigma' l l' Hl Hl'.
    apply calculate_values_locals_inv in Hl, Hl'.
    destruct Hl as (_ & _ & ->), Hl' as (_ & _ & ->).
    cbn [locals_at c_d v d J prop_efficiency p_req]. repeat split. }
  intros cfg rho sigma l Hl.
  apply calculate_values_locals_inv in Hl. destruct Hl as (_ & _ & ->).
  cbn [locals_at shp p_av prop_efficiency v d p_req]. rewrite map_map.
  repeat split.
Qed.

(** *** Square roots between rational bounds *)

Lemma sqrt_ge (a x : R) : 0 <= a -> a * a <= x -> a <= R_sqrt.sqrt x.
Proof.
  intros Ha H. rewrite <- (sqrt_square a) by assumption.
  apply sqrt_le_1_alt. exact H.
Qed.

Lemma sqrt_le (a x : R) : 0 <= a -> x <= a * a -> R_sqrt.sqrt x <= a.
Proof.
  intros Ha H. rewrite <- (sqrt_square a) by assumption.
  apply sqrt_le_1_alt. exact H.
Qed.

Lemma sqrt_gt (a x : R) : 0 <= a -> a * a < x -> a < R_sqrt.sqrt x.
Proof.
  intros Ha H. rewrite <- (sqrt_square a) by assumption.
  apply sqrt_lt_1_alt. split; [apply Rle_0_sqr || nra | exact H].
Qed.

Lemma sqrt_lt (a x : R) : 0 <= a -> 0 <= x -> x < a * a -> R_sqrt.sqrt x < a.
Proof.
  intros Ha Hx H. rewrite <- (sqrt_square a) by assumption.
  apply sqrt_lt_1_alt. split; assumption.
Qed.

Lemma inv_sqrt_decreasing (a b : R) :
  0 < a -> a < b -> 1 / R_sqrt.sqrt b < 1 / R_sqrt.sqrt a.
Proof.
  intros Ha Hab.
  assert (Hsa : 0 < R_sqrt.sqrt a) by (apply sqrt_lt_R0; assumption).
  assert (Hsb : R_sqrt.sqrt a < R_sqrt.sqrt b).
  { apply sqrt_lt_1_alt. lra. }
  unfold Rdiv. rewrite !Rmult_1_l.
  apply Rinv_lt_contravar; [| exact Hsb].
  apply Rmult_lt_0_compat; lra.
Qed.

(** Two altitudes: the velocity factor scales by the square root of the
    inverse ratio of the densities. *)
Lemma v_scale_ratio (cfg : AircraftConfig) (r1 r2 : R) :
  0 < w cfg -> 0 < area cfg -> 0 < r1 -> 0 < r2 ->
  v_scale cfg r2 = R_sqrt.sqrt (r1 / r2) * v_scale cfg r1.
Proof.
  intros Hw Ha H1 H2. unfold v_scale.
  rewrite <- sqrt_mult_alt.
  - f_equal. field. lra.
  - apply Rlt_le, Rdiv_lt_0_compat; assumption.
Qed.

Lemma bands_density_decreasing (k k' : nat) (rho sigma rho' sigma' : R) :
  (k < k')%nat ->
  nth_error bands k = Some (rho, sigma) ->
  nth_error bands k' = Some (rho', sigma') ->
  0 < rho' < rho.
Proof.
  rewrite bands_table.
  unfold density, density_5000ft, density_10000ft, density_15000ft.
  intros Hk H H'.
  do 4 (destruct k as [| k];
        [ do 4 (destruct k' as [| k'];
                [cbn in H, H'; try lia;
                 injection H as <- <-; injection H' as <- <-; lra |]);
          destruct k'; discriminate |]).
  destruct k; discriminate.
Qed.

(** *** Reading the result by altitude and sample *)

Lemma bands_nth_exists (k : nat) :
  (k < 4)%nat -> exists rho sigma, nth_error bands k = Some (rho, sigma).
Proof.
  intros Hk. rewrite bands_table.
  do 4 (destruct k as [| k]; [cbn; eauto |]). lia.
Qed.

Lemma results_nth (cfg : AircraftConfig) (k : nat) (rho sigma : R) :
  area cfg <> 0 ->
  nth_error bands k = Some (rho, sigma) ->
  exists rs,
    results cfg = Ok rs /\
    nth_error rs k = Some (returned (locals_at cfg rho sigma)).
Proof.
  intros Harea Hk. eexists. split; [apply results_ok; assumption |].
  rewrite nth_error_map, Hk. reflexivity.
Qed.

Lemma results_locals_nth (cfg : AircraftConfig) (k : nat) (rho sigma : R) :
  area cfg <> 0 ->
  nth_error bands k = Some (rho, sigma) ->
  exists ls,
    results_locals cfg = Ok ls /\
    nth_error ls k = Some (locals_at cfg rho sigma).
Proof.
  intros Harea Hk. eexists. split; [apply results_locals_ok; assumption |].
  rewrite nth_error_map, Hk. reflexivity.
Qed.

Lemma v_nth (cfg : AircraftConfig) (rho : R) (i : nat) :
  0 < w cfg -> 0 < area cfg -> 0 < rho -> (1 <= i < 20)%nat ->
  nth_error (map (v_at cfg rho) c_l) i =
  Some (Fin (v_scale cfg rho * (1 / R_sqrt.sqrt (sample i)))).
Proof.
  intros Hw Ha Hr Hi. rewrite nth_error_map, c_l_nth by lia.
  cbn [option_map]. f_equal. apply v_at_pos.
  - apply Rlt_le, Rdiv_lt_0_compat; [assumption |].
    apply Rmult_lt_0_compat; [lra | assumption].
  - apply sample_pos. lia.
Qed.

(** *** Velocity along the sweep and across altitudes *)





(** *** The reference scenario at sea level *)

Lemma reference_scale_eq :
  v_scale reference_config density =
  R_sqrt.sqrt (2400 / (0.5 * 2.377e-3 * 170)).
Proof.
  unfold v_scale, density. cbn [w area reference_config]. f_equal. lra.
Qed.

Lemma reference_scale_bounds :
  108.98 < v_scale reference_config density < 108.99.
Proof.
  rewrite reference_scale_eq. split.
  - apply sqrt_gt; lra.
  - apply sqrt_lt; lra.
Qed.

Lemma sample_1_value : sample 1 = 1.3182 / 19.
Proof. unfold sample. cbn [Z.of_nat Pos.of_succ_nat]. lra. Qed.

Lemma sample_19_value : sample 19 = 1.3182.
Proof. unfold sample. cbn [Z.of_nat Pos.of_succ_nat Pos.succ]. lra. Qed.

Lemma sqrt_sample_1_bounds : 0.2633 < R_sqrt.sqrt (sample 1) < 0.2634.
Proof.
  rewrite sample_1_value. split.
  - apply sqrt_gt; lra.
  - apply sqrt_lt; lra.
Qed.

Lemma sqrt_sample_19_bounds : 1.148 < R_sqrt.sqrt (sample 19) < 1.149.
Proof.
  rewrite sample_19_value. split.
  - apply sqrt_gt; lra.
  - apply sqrt_lt; lra.
Qed.

(** Bounds of a quotient of positive quantities. *)
Lemma quotient_bounds (a b lo hi p q : R) :
  0 < lo -> 0 < p -> lo < a < hi -> p < b < q ->
  lo / q < a * (1 / b) < hi / p.
Proof.
  intros Hlo Hp [Ha1 Ha2] [Hb1 Hb2].
  assert (Hb : 0 < b) by lra.
  assert (Hq : 0 < q) by lra.
  split.
  - apply (Rmult_lt_reg_r (q * b)); [apply Rmult_lt_0_compat; assumption |].
    replace (lo / q * (q * b)) with (lo * b) by (field; lra).
    replace (a * (1 / b) * (q * b)) with (a * q) by (field; lra).
    nra.
  - apply (Rmult_lt_reg_r (p * b)); [apply Rmult_lt_0_compat; assumption |].
    replace (hi / p * (p * b)) with (hi * b) by (field; lra).
    replace (a * (1 / b) * (p * b)) with (a * p) by (field; lra).
    nra.
Qed.

(** The velocity of sample 1 at sea level, about 413.8 ft/s. *)
Lemma reference_v_1_bounds :
  413.74 < v_scale reference_config density * (1 / R_sqrt.sqrt (sample 1))
         < 413.94.
Proof.
  pose proof (quotient_bounds _ _ 108.98 108.99 0.2633 0.2634
                ltac:(lra) ltac:(lra)
                reference_scale_bounds sqrt_sample_1_bounds) as [H1 H2].
  split; lra.
Qed.

(** The velocity of sample 19 at sea level, about 94.9 ft/s. *)
Lemma reference_v_19_bounds :
  94.84 < v_scale reference_config density * (1 / R_sqrt.sqrt (sample 19))
        < 94.94.
Proof.
  pose proof (quotient_bounds _ _ 108.98 108.99 1.148 1.149
                ltac:(lra) ltac:(lra)
                reference_scale_bounds sqrt_sample_19_bounds) as [H1 H2].
  split; lra.
Qed.

(** C8.  In the reference scenario at sea level the velocity of the
    sample of index 1, [c_l = 1.3182/19], is at least the reference value
    [sqrt(2400/(0.5*2.377e-3*170)) * (1/sqrt(0.0694))] and exceeds it by
    less than 0.016 percent, that is by less than 0.07 ft/s: the distance
    that rounding the lift coefficient to 0.0694 makes. *)
Theorem reference_velocity_within_tolerance :
  exists rs v roc climb_angle x,
    results reference_config = Ok rs /\
    nth_error rs 0 = Some (v, roc, climb_angle) /\
    nth_error v 1 = Some (Fin x) /\
    reference_velocity <= x <= reference_velocity * (1 + 0.00016) /\
    Rabs (x - reference_velocity) <= 0.07.
Proof.
  destruct (results_nth reference_config 0 density 1) as (rs & Hrs & Hnth);
    [cbn; lra | reflexivity |].
  exists rs. do 3 eexists.
  exists (v_scale reference_config density * (1 / R_sqrt.sqrt (sample 1))).
  split; [exact Hrs |]. split; [exact Hnth |].
  split.
  { cbn [locals_at v]. apply v_nth; cbn; try lra; try lia. unfold density. lra. }
  pose proof reference_scale_bounds as [HK1 HK2].
  pose proof sqrt_sample_1_bounds as [Hs1 Hs2].
  unfold reference_velocity. rewrite <- reference_scale_eq.
  set (K := v_scale reference_config density) in *.
  assert (Hb1 : 0.2634 < R_sqrt.sqrt 0.0694) by (apply sqrt_gt; lra).
  assert (Hb2 : R_sqrt.sqrt 0.0694 < 0.2635) by (apply sqrt_lt; lra).
  assert (Hab : R_sqrt.sqrt 0.0694 <= 1.00016 * R_sqrt.sqrt (sample 1)).
  { rewrite <- (sqrt_square 1.00016) by lra.
    rewrite <- sqrt_mult_alt by lra.
    apply sqrt_le_1_alt. rewrite sample_1_value. lra. }
  set (a := R_sqrt.sqrt (sample 1)) in *.
  set (b := R_sqrt.sqrt 0.0694) in *.
  clearbody K a b.
  assert (Hlow : K * (1 / b) <= K * (1 / a)).
  { apply Rmult_le_compat_l; [lra |].
    unfold Rdiv. rewrite !Rmult_1_l. apply Rinv_le_contravar; lra. }
  assert (Hia : a * (1 / a) = 1) by (field; lra).
  assert (Hib : b * (1 / b) = 1) by (field; lra).
  assert (Hia0 : 0 < 1 / a) by (apply Rdiv_lt_0_compat; lra).
  assert (Hib0 : 0 < 1 / b) by (apply Rdiv_lt_0_compat; lra).
  assert (Hinv : 1 / a <= 1.00016 * (1 / b)).
  { apply (Rmult_le_reg_r (a * b)); [apply Rmult_lt_0_compat; lra |].
    replace (1 / a * (a * b)) with (a * (1 / a) * b) by ring.
    replace (1.00016 * (1 / b) * (a * b))
      with (1.00016 * a * (b * (1 / b))) by lra.
    rewrite Hia, Hib. lra. }
  assert (Hhigh : K * (1 / a) <= K * (1 / b) * (1 + 0.00016)).
  { replace (K * (1 / b) * (1 + 0.00016)) with (K * (1.00016 * (1 / b)))
      by lra.
    apply Rmult_le_compat_l; [lra | exact Hinv]. }
  assert (Href : K * (1 / b) < 413.8).
  { pose proof (quotient_bounds K b 108.98 108.99 0.2634 0.2635
                  ltac:(lra) ltac:(lra) (conj HK1 HK2) (conj Hb1 Hb2)) as [_ H].
    lra. }
  split; [split; assumption |].
  rewrite Rabs_pos_eq by lra. lra.
Qed.

(** *** Finite values at a positive sample *)

Lemma powr_Fin_pos (c p : R) : 0 < c -> powr (Fin c) p = Fin (Rpower c p).
Proof. intros H. unfold powr. dec_R. reflexivity. Qed.

Lemma Rpower_pos (c p : R) : 0 < Rpower c p.
Proof. unfold Rpower. apply exp_pos. Qed.

Lemma Rpower_three_halves (c : R) : 0 < c -> Rpower c 1.5 = c * R_sqrt.sqrt c.
Proof.
  intros H. replace 1.5 with (1 + / 2) by lra.
  rewrite Rpower_plus, Rpower_1, Rpower_sqrt by assumption. reflexivity.
Qed.

Lemma closed_form (cfg : AircraftConfig) (rho sigma c : R) :
  valid_config cfg -> 0 < rho -> 0 < c ->
  v_at cfg rho (Fin c) = Fin (velocity_R cfg rho c) /\
  J_at cfg rho (Fin c) = Fin (advance_ratio_R cfg rho c) /\
  prop_efficiency_at cfg rho (Fin c) = Fin (efficiency_R cfg rho c) /\
  c_d_at cfg (Fin c) = Fin (drag_coefficient_R cfg c) /\
  p_req_at cfg rho (Fin c) = Fin (power_required_R cfg rho c) /\
  p_av_at cfg rho sigma (Fin c) = Fin (power_available_R cfg rho sigma c) /\
  roc_at cfg rho sigma (Fin c) = Fin (rate_of_climb_R cfg rho sigma c) /\
  ratio_at cfg rho sigma (Fin c) = Fin (climb_ratio_R cfg rho sigma c) /\
  0 < velocity_R cfg rho c.
Proof.
  intros [Hc0 HAR [He _] Hw Hb Ha Hp Hrpm] Hr Hc.
  assert (Hv : v_at cfg rho (Fin c) = Fin (velocity_R cfg rho c)).
  { apply v_at_pos; [| assumption].
    apply Rlt_le, Rdiv_lt_0_compat; [assumption |].
    apply Rmult_lt_0_compat; [lra | assumption]. }
  assert (Hvpos : 0 < velocity_R cfg rho c).
  { unfold velocity_R. apply Rmult_lt_0_compat.
    - apply v_scale_pos; assumption.
    - apply Rdiv_lt_0_compat; [lra | apply sqrt_lt_R0; assumption]. }
  assert (HJ : J_at cfg rho (Fin c) = Fin (advance_ratio_R cfg rho c)).
  { unfold J_at. rewrite Hv. apply div_Fin.
    apply Rgt_not_eq, Rmult_lt_0_compat; [lra | assumption]. }
  assert (Heta : prop_efficiency_at cfg rho (Fin c) = Fin (efficiency_R cfg rho c)).
  { unfold prop_efficiency_at. rewrite HJ. apply quartic_Fin. }
  assert (Hcd : c_d_at cfg (Fin c) = Fin (drag_coefficient_R cfg c)).
  { unfold c_d_at. cbn [powi]. rewrite div_Fin; [reflexivity |].
    apply Rgt_not_eq.
    apply Rmult_lt_0_compat; [apply Rmult_lt_0_compat; [lra |] |]; assumption. }
  assert (Hpreq : p_req_at cfg rho (Fin c) = Fin (power_required_R cfg rho c)).
  { unfold p_req_at. rewrite Hcd, powr_Fin_pos by assumption.
    rewrite sqrt_Fin.
    - rewrite div_Fin by (apply Rgt_not_eq, Rpower_pos). reflexivity.
    - apply Rlt_le, Rdiv_lt_0_compat; [lra |].
      apply Rmult_lt_0_compat; assumption. }
  assert (Hpav : p_av_at cfg rho sigma (Fin c) =
                 Fin (power_available_R cfg rho sigma c)).
  { unfold p_av_at. rewrite Heta. reflexivity. }
  assert (Hroc : roc_at cfg rho sigma (Fin c) =
                 Fin (rate_of_climb_R cfg rho sigma c)).
  { unfold roc_at. rewrite Hpav, Hpreq. cbn [sub opp add].
    apply div_Fin. lra. }
  repeat split; try assumption.
  unfold ratio_at. rewrite Hroc, Hv. apply div_Fin. lra.
Qed.

Lemma lt_quotient (x y z : R) : 0 < z -> x * z < y -> x < y / z.
Proof.
  intros Hz H. apply (Rmult_lt_reg_r z); [assumption |].
  unfold Rdiv. rewrite Rmult_assoc, Rinv_l by lra. lra.
Qed.

Lemma quotient_lt (x y z : R) : 0 < z -> y < x * z -> y / z < x.
Proof.
  intros Hz H. apply (Rmult_lt_reg_r z); [assumption |].
  unfold Rdiv. rewrite Rmult_assoc, Rinv_l by lra. lra.
Qed.

Lemma pow_bounds (a b j : R) (n : nat) :
  0 <= a -> a <= j <= b -> a ^ n <= j ^ n <= b ^ n.
Proof. intros Ha [H1 H2]. split; apply pow_incr; lra. Qed.

(** The quartic of line 117 is negative around [J = 1.51] and positive
    around [J = 0.35]. *)
Lemma quartic_R_fast (j : R) : 1.5113 <= j <= 1.5122 -> quartic_R j < -8.
Proof.
  intros H. unfold quartic_R.
  pose proof (pow_bounds 1.5113 1.5122 j 4 ltac:(lra) H) as [H4 _].
  pose proof (pow_bounds 1.5113 1.5122 j 3 ltac:(lra) H) as [_ H3].
  pose proof (pow_bounds 1.5113 1.5122 j 2 ltac:(lra) H) as [H2 _].
  lra.
Qed.

Lemma quartic_R_slow (j : R) : 0.3464 <= j <= 0.3469 -> 0.5 < quartic_R j.
Proof.
  intros H. unfold quartic_R.
  pose proof (pow_bounds 0.3464 0.3469 j 4 ltac:(lra) H) as [_ H4].
  pose proof (pow_bounds 0.3464 0.3469 j 3 ltac:(lra) H) as [H3 _].
  pose proof (pow_bounds 0.3464 0.3469 j 2 ltac:(lra) H) as [_ H2].
  lra.
Qed.

(** Sample 1 of the reference scenario at sea level: the advance ratio is
    about 1.51 and the propeller efficiency below -8. *)
Lemma reference_efficiency_1 :
  efficiency_R reference_config density (sample 1) < -8.
Proof.
  unfold efficiency_R. apply quartic_R_fast.
  unfold advance_ratio_R, velocity_R. cbn [rpm prop_diameter reference_config].
  pose proof reference_v_1_bounds as [H1 H2]. lra.
Qed.

(** Sample 19 of the reference scenario at sea level: the advance ratio is
    about 0.35 and the propeller efficiency above 0.5. *)
Lemma reference_efficiency_19 :
  0.5 < efficiency_R reference_config density (sample 19).
Proof.
  unfold efficiency_R. apply quartic_R_slow.
  unfold advance_ratio_R, velocity_R. cbn [rpm prop_diameter reference_config].
  pose proof reference_v_19_bounds as [H1 H2]. lra.
Qed.

Lemma reference_power_required_1 :
  440000 < power_required_R reference_config density (sample 1).
Proof.
  unfold power_required_R, drag_coefficient_R.
  cbn [w area c_d0 e0 AR reference_config].
  rewrite Rpower_three_halves by (apply sample_pos; lia).
  pose proof sqrt_sample_1_bounds as [Hs1 Hs2].
  rewrite sample_1_value in *.
  set (s := R_sqrt.sqrt (1.3182 / 19)) in *. clearbody s.
  assert (HS : 108 < R_sqrt.sqrt (2 * 2400 / (170 * density))).
  { apply sqrt_gt; unfold density; lra. }
  set (S := R_sqrt.sqrt (2 * 2400 / (170 * density))) in *. clearbody S.
  assert (HQ : 1.7 <
    (0.0317 + (1.3182 / 19) ^ 2 / (3.14 * 0.6 * 5.71)) / (1.3182 / 19 * s)).
  { apply lt_quotient; lra. }
  set (Q := (0.0317 + (1.3182 / 19) ^ 2 / (3.14 * 0.6 * 5.71))
            / (1.3182 / 19 * s)) in *.
  clearbody Q. nra.
Qed.

(** In the default scenario itself, sample 1 at sea level has a quotient
    [roc / v] below -1. *)
Lemma reference_ratio_1 :
  climb_ratio_R reference_config density 1 (sample 1) < -1.
Proof.
  unfold climb_ratio_R, rate_of_climb_R, power_available_R.
  pose proof reference_efficiency_1 as He.
  pose proof reference_power_required_1 as Hp.
  pose proof reference_v_1_bounds as [Hv1 Hv2].
  fold (velocity_R reference_config density (sample 1)) in Hv1, Hv2.
  unfold bhp_550. cbn [bhp w reference_config].
  set (e := efficiency_R reference_config density (sample 1)) in *.
  set (p := power_required_R reference_config density (sample 1)) in *.
  set (x := velocity_R reference_config density (sample 1)) in *.
  clearbody e p x.
  assert (Hroc : (180 * 550 * 1 * e + - p) / 2400 < -500) by lra.
  set (r := (180 * 550 * 1 * e + - p) / 2400) in *. clearbody r.
  apply quotient_lt; lra.
Qed.

(** *** Climb angle *)

Lemma arcsin_out_of_range (q : R) : 1 < Rabs q -> arcsin (Fin q) = NaN.
Proof. intros H. unfold arcsin. dec_R. reflexivity. Qed.

Lemma arcsin_in_range (q : R) : Rabs q <= 1 -> arcsin (Fin q) = Fin (asin q).
Proof. intros H. unfold arcsin. dec_R. reflexivity. Qed.

(** The climb angles of one altitude, read against the arrays returned
    with them. *)
Lemma climb_angle_elementwise (cfg : AircraftConfig) (rho sigma : R)
  (i : nat) (r x : float64) :
  nth_error (map (roc_at cfg rho sigma) c_l) i = Some r ->
  nth_error (map (v_at cfg rho) c_l) i = Some x ->
  nth_error (map (climb_angle_at cfg rho sigma) c_l) i =
  Some (arcsin (div r x)).
Proof.
  rewrite !nth_error_map.
  destruct (nth_error c_l i) as [c |]; cbn [option_map]; [| discriminate].
  intros [= <-] [= <-]. reflexivity.
Qed.

Lemma returned_inv (l : Locals) (vs rocs angles : ndarray) :
  Some (returned l) = Some (vs, rocs, angles) ->
  vs = v l /\ rocs = roc l /\ angles = climb_angle l.
Proof. unfold returned. intros H. repeat split; congruence. Qed.



(** *** Power available and rated power *)

Lemma doubled_power_valid (cfg : AircraftConfig) :
  valid_config cfg -> valid_config (doubled_power cfg).
Proof.
  intros [H1 H2 H3 H4 H5 H6 H7 H8]. constructor; cbn; try assumption. lra.
Qed.

Lemma efficiency_nth (cfg : AircraftConfig) (rho sigma : R) (i : nat) :
  valid_config cfg -> 0 < rho -> (1 <= i < 20)%nat ->
  nth_error (prop_efficiency (locals_at cfg rho sigma)) i =
    Some (Fin (efficiency_R cfg rho (sample i))) /\
  nth_error (p_av (locals_at cfg rho sigma)) i =
    Some (Fin (power_available_R cfg rho sigma (sample i))).
Proof.
  intros Hvalid Hr Hi.
  destruct (closed_form cfg rho sigma (sample i) Hvalid Hr)
    as (_ & _ & He & _ & _ & Hp & _); [apply sample_pos; lia |].
  cbn [locals_at prop_efficiency p_av].
  rewrite !nth_error_map, c_l_nth by lia. cbn [option_map].
  rewrite He, Hp. split; reflexivity.
Qed.

(** Line 120 is linear in the rated power, and the efficiency it
    multiplies does not depend on it: doubling the one doubles the
    product, upwards where the efficiency is positive and downwards where
    it is negative. *)
Lemma doubling_at_sample (cfg : AircraftConfig) (k i : nat) (rho sigma : R) :
  valid_config cfg -> nth_error bands k = Some (rho, sigma) ->
  (1 <= i < 20)%nat ->
  let e := efficiency_R cfg rho (sample i) in
  let p := power_available_R cfg rho sigma (sample i) in
  nth_error (prop_efficiency (locals_at cfg rho sigma)) i = Some (Fin e) /\
  nth_error (prop_efficiency (locals_at (doubled_power cfg) rho sigma)) i =
    Some (Fin e) /\
  nth_error (p_av (locals_at cfg rho sigma)) i = Some (Fin p) /\
  nth_error (p_av (locals_at (doubled_power cfg) rho sigma)) i =
    Some (Fin (2 * p)) /\
  (0 < e -> p < 2 * p) /\ (e < 0 -> 2 * p < p) /\ (e = 0 -> 2 * p = p).
Proof.
  intros Hvalid Hband Hi e p.
  destruct (bands_density_pos k rho sigma Hband) as [Hr Hs].
  destruct (efficiency_nth cfg rho sigma i Hvalid Hr Hi) as [He Hp].
  destruct (efficiency_nth (doubled_power cfg) rho sigma i
              (doubled_power_valid cfg Hvalid) Hr Hi) as [He' Hp'].
  assert (Hsame : efficiency_R (doubled_power cfg) rho (sample i) = e)
    by reflexivity.
  assert (Htwice :
    power_available_R (doubled_power cfg) rho sigma (sample i) = 2 * p).
  { unfold p, power_available_R. rewrite Hsame.
    unfold bhp_550, e. cbn [doubled_power with_bhp bhp]. ring. }
  rewrite Hsame in He'. rewrite Htwice in Hp'.
  do 4 (split; [assumption |]).
  assert (Hb : 0 < bhp_550 cfg * sigma).
  { apply Rmult_lt_0_compat; [| assumption]. unfold bhp_550.
    destruct Hvalid. lra. }
  unfold p, power_available_R. fold e.
  set (s := bhp_550 cfg * sigma) in *. clearbody s.
  repeat split; intros; nra.
Qed.




(** *** The reference scenario in binary64 *)

(** The 20 velocities that line 114 computes at sea level for the default
    inputs, in binary64: the first is [inf], the others decrease strictly,
    and the second is within 0.07 ft/s of the reference value. *)
Lemma binary64_reference_velocities :
  let v := Binary64.v 2400 170 Binary64.density in
  length v = 20%nat /\
  nth_error v 0 = Some infinity /\
  Binary64.decreasing v = true /\
  option_map (Binary64.within 0.07 Binary64.reference_velocity)
    (nth_error v 1) = Some true.
Proof. vm_compute. repeat split. Qed.

(** ** Further properties of the callback *)

(** *** The sample [c_l = 0] *)

Lemma quartic_PInf : quartic PInf = NaN.
Proof.
  unfold quartic, sub. cbn [powi].
  cbn [mul]. rewrite Rsgn_neg, Rsgn_pos by lra. reflexivity.
Qed.

(** Lines 113-122 at the first sample, for a valid configuration and a
    positive density. *)
Lemma zero_sample_values (cfg : AircraftConfig) (rho sigma : R) :
  valid_config cfg -> 0 < rho ->
  c_d_at cfg (Fin 0) = Fin (c_d0 cfg) /\
  v_at cfg rho (Fin 0) = PInf /\
  d_at cfg rho (Fin 0) = PInf /\
  J_at cfg rho (Fin 0) = PInf /\
  prop_efficiency_at cfg rho (Fin 0) = NaN /\
  p_req_at cfg rho (Fin 0) = PInf /\
  p_av_at cfg rho sigma (Fin 0) = NaN /\
  roc_at cfg rho sigma (Fin 0) = NaN /\
  climb_angle_at cfg rho sigma (Fin 0) = NaN.
Proof.
  intros [Hc0 HAR [He _] Hw Hb Ha Hp Hrpm] Hr.
  assert (Hv : v_at cfg rho (Fin 0) = PInf) by (apply v_at_zero; assumption).
  assert (Hcd : c_d_at cfg (Fin 0) = Fin (c_d0 cfg)).
  { unfold c_d_at. cbn [powi]. rewrite div_Fin.
    - cbn [add]. f_equal. unfold Rdiv. ring.
    - apply Rgt_not_eq.
      apply Rmult_lt_0_compat; [apply Rmult_lt_0_compat; [lra |] |]; assumption. }
  assert (HJ : J_at cfg rho (Fin 0) = PInf).
  { unfold J_at. rewrite Hv. cbn [div].
    assert (0 < rpm cfg / 60 * prop_diameter cfg)
      by (apply Rmult_lt_0_compat; [lra | assumption]).
    dec_R. reflexivity. }
  assert (Heta : prop_efficiency_at cfg rho (Fin 0) = NaN).
  { unfold prop_efficiency_at. rewrite HJ. apply quartic_PInf. }
  assert (Hpreq : p_req_at cfg rho (Fin 0) = PInf).
  { unfold p_req_at. rewrite Hcd. unfold powr. dec_R.
    rewrite div_Fin_zero by assumption.
    assert (Hq : 0 < 2 * w cfg / (area cfg * rho)).
    { apply Rdiv_lt_0_compat; [lra |]. apply Rmult_lt_0_compat; assumption. }
    rewrite sqrt_Fin by lra. cbn [mul].
    rewrite Rsgn_pos; [reflexivity |].
    apply Rmult_lt_0_compat; [assumption | apply sqrt_lt_R0; assumption]. }
  assert (Hpav : p_av_at cfg rho sigma (Fin 0) = NaN).
  { unfold p_av_at. rewrite Heta. reflexivity. }
  assert (Hroc : roc_at cfg rho sigma (Fin 0) = NaN).
  { unfold roc_at. rewrite Hpav. reflexivity. }
  repeat split; try assumption.
  - unfold d_at. rewrite Hv. cbn [powi mul]. rewrite Rsgn_pos; [reflexivity |].
    apply Rmult_lt_0_compat; [lra | assumption].
  - unfold climb_angle_at, ratio_at. rewrite Hroc. reflexivity.
Qed.



(** *** The samples of positive lift coefficient *)



(** Square of the velocity of line 114. *)
Lemma velocity_R_sqr (cfg : AircraftConfig) (rho c : R) :
  0 < w cfg -> 0 < area cfg -> 0 < rho -> 0 < c ->
  velocity_R cfg rho c ^ 2 = w cfg / (0.5 * rho * area cfg) / c.
Proof.
  intros Hw Ha Hr Hc. unfold velocity_R, v_scale.
  assert (Hq : 0 < w cfg / (0.5 * rho * area cfg)).
  { apply Rdiv_lt_0_compat; [assumption |].
    apply Rmult_lt_0_compat; [lra | assumption]. }
  assert (Hs : 0 < R_sqrt.sqrt c) by (apply sqrt_lt_R0; assumption).
  replace ((R_sqrt.sqrt (w cfg / (0.5 * rho * area cfg))
            * (1 / R_sqrt.sqrt c)) ^ 2)
    with (R_sqrt.sqrt (w cfg / (0.5 * rho * area cfg)) ^ 2
          / R_sqrt.sqrt c ^ 2) by (field; lra).
  rewrite !pow2_sqrt by lra. reflexivity.
Qed.



Lemma power_required_R_drag (cfg : AircraftConfig) (rho c : R) :
  valid_config cfg -> 0 < rho -> 0 < c ->
  power_required_R cfg rho c =
    drag_coefficient_R cfg c
    * (0.5 * rho * area cfg * velocity_R cfg rho c ^ 2)
    * velocity_R cfg rho c /\
  0 < power_required_R cfg rho c.
Proof.
  intros [Hc0 HAR [He _] Hw Hb Ha Hp Hrpm] Hr Hc.
  assert (Hs : 0 < R_sqrt.sqrt c) by (apply sqrt_lt_R0; assumption).
  assert (HK : 0 < v_scale cfg rho) by (apply v_scale_pos; assumption).
  assert (Hcd : 0 < drag_coefficient_R cfg c).
  { unfold drag_coefficient_R.
    assert (0 < c ^ 2 / (3.14 * e0 cfg * AR cfg)).
    { apply Rdiv_lt_0_compat; [apply pow_lt; assumption |].
      apply Rmult_lt_0_compat; [apply Rmult_lt_0_compat; [lra |] |]; assumption. }
    lra. }
  assert (Hform : power_required_R cfg rho c =
                  w cfg * v_scale cfg rho
                  * (drag_coefficient_R cfg c / (c * R_sqrt.sqrt c))).
  { unfold power_required_R, v_scale.
    rewrite Rpower_three_halves by assumption.
    replace (2 * w cfg / (area cfg * rho))
      with (w cfg / (0.5 * rho * area cfg))
      by (replace 0.5 with (/ 2) by lra; field; lra).
    reflexivity. }
  split.
  - rewrite Hform, velocity_R_sqr by assumption.
    unfold velocity_R. field. lra.
  - rewrite Hform. apply Rmult_lt_0_compat.
    + apply Rmult_lt_0_compat; assumption.
    + apply Rdiv_lt_0_compat; [assumption |].
      apply Rmult_lt_0_compat; assumption.
Qed.



(** *** Bounds on the propeller efficiency *)

(** The quartic of line 117 stays below 0.83 on the whole real line. *)
Lemma quartic_R_below (j : R) : quartic_R j < 0.83.
Proof.
  unfold quartic_R.
  pose proof (pow2_ge_0 (j * j - 2719 / 2412 * j + 0.27)) as H1.
  pose proof (pow2_ge_0 (j - 0.78)) as H2.
  pose proof (pow2_ge_0 (j - 0.79)) as H3.
  lra.
Qed.



(** *** The graphs *)

Lemma plots_from_length (i : nat)
  (rows : list (Z * (R * (ndarray * ndarray * ndarray)))) :
  length (plots_from i rows) = (2 * length rows)%nat.
Proof.
  revert i. induction rows as [| [alt [sig [[vs rocs] angles]]] rows IH];
    intros i; cbn [plots_from length]; [reflexivity |].
  rewrite IH. lia.
Qed.

Lemma plots_from_nth (i k : nat)
  (rows : list (Z * (R * (ndarray * ndarray * ndarray))))
  (alt : Z) (sig : R) (vs rocs angles : ndarray) :
  nth_error rows k = Some (alt, (sig, (vs, rocs, angles))) ->
  nth_error (plots_from i rows) (2 * k) =
    Some {| graph_kind := roc_plot; graph_index := i + k;
            graph_altitude := alt; graph_x := vs; graph_y := rocs |} /\
  nth_error (plots_from i rows) (2 * k + 1) =
    Some {| graph_kind := climb_angle_plot; graph_index := i + k;
            graph_altitude := alt; graph_x := vs; graph_y := angles |}.
Proof.
  revert i k.
  induction rows as [| [alt' [sig' [[vs' rocs'] angles']]] rows IH];
    intros i k Hk.
  - destruct k; discriminate.
  - destruct k as [| k].
    + cbn in Hk. injection Hk as -> -> -> -> ->.
      cbn [plots_from Nat.mul Nat.add nth_error]. rewrite Nat.add_0_r.
      split; reflexivity.
    + cbn [nth_error] in Hk.
      destruct (IH (S i) k Hk) as [H1 H2].
      replace (2 * S k)%nat with (S (S (2 * k))) by lia.
      replace (S (S (2 * k)) + 1)%nat with (S (S (2 * k + 1))) by lia.
      cbn [plots_from nth_error].
      replace (i + S k)%nat with (S i + k)%nat by lia.
      split; assumption.
Qed.




(** *** Identifiers of the graphs *)

Lemma str_nat_inj (i j : nat) : Ids.str_nat i = Ids.str_nat j -> i = j.
Proof.
  unfold Ids.str_nat. intros H.
  apply (f_equal DecimalString.NilEmpty.uint_of_string) in H.
  rewrite !DecimalString.NilEmpty.usu in H.
  assert (E : Nat.to_uint i = Nat.to_uint j) by congruence.
  apply (f_equal Nat.of_uint) in E.
  rewrite !DecimalNat.Unsigned.of_to in E. exact E.
Qed.

Lemma append_cancel (p s t : String.string) :
  String.append p s = String.append p t -> s = t.
Proof.
  induction p as [| a p IH]; cbn [String.append]; intros H; [exact H |].
  apply IH. congruence.
Qed.

Lemma graph_id_inj (g g' : Graph) :
  Ids.graph_id g = Ids.graph_id g' ->
  graph_kind g = graph_kind g' /\ graph_index g = graph_index g'.
Proof.
  unfold Ids.graph_id.
  destruct (graph_kind g), (graph_kind g'); intros H.
  - split; [reflexivity |]. apply str_nat_inj.
    apply append_cancel in H. exact H.
  - cbn [String.append] in H. discriminate.
  - cbn [String.append] in H. discriminate.
  - split; [reflexivity |]. apply str_nat_inj.
    apply append_cancel in H. exact H.
Qed.

Lemma plots_from_index (i : nat)
  (rows : list (Z * (R * (ndarray * ndarray * ndarray)))) (g : Graph) :
  In g (plots_from i rows) -> (i <= graph_index g)%nat.
Proof.
  revert i. induction rows as [| [alt [sig [[vs rocs] angles]]] rows IH];
    intros i; cbn [plots_from In]; [contradiction |].
  intros [<- | [<- | Hin]]; cbn [graph_index]; try lia.
  apply IH in Hin. lia.
Qed.

Lemma plots_from_ids_NoDup (i : nat)
  (rows : list (Z * (R * (ndarray * ndarray * ndarray)))) :
  NoDup (map Ids.graph_id (plots_from i rows)).
Proof.
  revert i. induction rows as [| [alt [sig [[vs rocs] angles]]] rows IH];
    intros i; cbn [plots_from map]; [constructor |].
  assert (Hfresh : forall g0,
            graph_index g0 = i ->
            ~ In (Ids.graph_id g0) (map Ids.graph_id (plots_from (S i) rows))).
  { intros g0 Hg0 Hin. apply in_map_iff in Hin.
    destruct Hin as (g' & Heq & Hin').
    apply plots_from_index in Hin'.
    apply graph_id_inj in Heq. destruct Heq as [_ Heq]. lia. }
  constructor; [| constructor; [| apply IH]].
  - intros [Heq | Hin].
    + apply graph_id_inj in Heq. destruct Heq as [Heq _]. discriminate.
    + revert Hin. apply Hfresh. reflexivity.
  - apply Hfresh. reflexivity.
Qed.

(** Dash needs the [id] of every component to be unique.  The identifiers
    [roc-plot-i] and [climb-angle-plot-i] that the loop of line 132 gives
    to the graphs are pairwise distinct, for any number of altitudes; for
    the eight graphs the callback returns they are the identifiers of
    ranks 0 to 3. *)
Theorem graph_ids_are_distinct (n_clicks : Z) (cfg : AircraftConfig)
  (plots : list Graph) :
  update_output n_clicks cfg = Ok (Div plots) ->
  NoDup (map Ids.graph_id plots) /\
  map Ids.graph_id plots = Ids.eight_ids /\
  map Ids.graph_title plots = Ids.eight_titles.
Proof.
  unfold update_output. destruct (n_clicks =? 0)%Z; [discriminate |].
  destruct (Req_dec_T (area cfg) 0) as [H0 | Hnz].
  - rewrite results_raise by assumption. discriminate.
  - rewrite results_ok by assumption. cbn [bind]. intros H.
    assert (E : plots =
      plots_from 0
        (combine altitudes
           (combine density_ratios
              (map (fun p => returned (locals_at cfg (fst p) (snd p))) bands))))
      by congruence.
    rewrite E. split; [apply plots_from_ids_NoDup |].
    rewrite bands_table. split; reflexivity.
Qed.

Lemma graph_ids_are_distinct_witness :
  exists plots,
    update_output 1 reference_config = Ok (Div plots) /\
    NoDup (map Ids.graph_id plots).
Proof.
  assert (Harea : area reference_config <> 0) by (cbn; lra).
  eexists. split.
  - unfold update_output. cbn [Z.eqb]. rewrite results_ok by exact Harea.
    reflexivity.
  - apply (graph_ids_are_distinct 1 reference_config).
    unfold update_output. cbn [Z.eqb]. rewrite results_ok by exact Harea.
    reflexivity.
Defined.

(** *** Inputs outside the data model *)

(** A negative quotient under the square root of line 114 makes every
    returned value not-a-number. *)
Lemma negative_loading_values (cfg : AircraftConfig) (rho sigma : R)
  (x : float64) :
  w cfg / (0.5 * rho * area cfg) < 0 ->
  v_at cfg rho x = NaN /\ roc_at cfg rho sigma x = NaN /\
  climb_angle_at cfg rho sigma x = NaN.
Proof.
  intros Hq.
  assert (Hd : rho * area cfg <> 0).
  { intros E.
    replace (0.5 * rho * area cfg) with (0.5 * (rho * area cfg)) in Hq by lra.
    rewrite E in Hq. replace (0.5 * 0) with 0 in Hq by lra.
    unfold Rdiv in Hq. rewrite Rinv_0 in Hq. lra. }
  assert (Hrho : rho <> 0) by (intros E; apply Hd; rewrite E; lra).
  assert (Harea : area cfg <> 0) by (intros E; apply Hd; rewrite E; lra).
  assert (Hq' : 2 * w cfg / (area cfg * rho) < 0).
  { replace (2 * w cfg / (area cfg * rho))
      with (w cfg / (0.5 * rho * area cfg)); [exact Hq |].
    replace 0.5 with (/ 2) by lra. field. split; assumption. }
  assert (Hv : v_at cfg rho x = NaN).
  { unfold v_at, Np.sqrt at 1. dec_R. reflexivity. }
  assert (Hroc : roc_at cfg rho sigma x = NaN).
  { unfold roc_at, p_req_at, Np.sqrt. dec_R. cbn [mul].
    unfold sub. destruct (p_av_at cfg rho sigma x); reflexivity. }
  repeat split; try assumption.
  unfold climb_angle_at, ratio_at. rewrite Hroc. reflexivity.
Qed.



(** Lines 113-122 at a sample of positive lift coefficient when the weight
    is zero and the other inputs are valid. *)
Lemma zero_weight_values (cfg : AircraftConfig) (rho sigma c : R) :
  valid_config cfg -> 0 < rho -> 0 < sigma -> 0 < c ->
  v_at (with_w cfg 0) rho (Fin c) = Fin 0 /\
  roc_at (with_w cfg 0) rho sigma (Fin c) = NInf /\
  climb_angle_at (with_w cfg 0) rho sigma (Fin c) = NaN.
Proof.
  intros [Hc0 HAR [He _] Hw Hb Ha Hp Hrpm] Hr Hs Hc.
  assert (Hsc : 0 < R_sqrt.sqrt c) by (apply sqrt_lt_R0; assumption).
  assert (Hv : v_at (with_w cfg 0) rho (Fin c) = Fin 0).
  { unfold v_at. cbn [w area with_w].
    replace (0 / (0.5 * rho * area cfg)) with 0 by (unfold Rdiv; ring).
    rewrite !sqrt_Fin by lra. rewrite div_Fin by lra.
    cbn [mul]. f_equal. rewrite sqrt_0. ring. }
  assert (HJ : J_at (with_w cfg 0) rho (Fin c) = Fin 0).
  { unfold J_at. rewrite Hv. cbn [rpm prop_diameter with_w].
    rewrite div_Fin by (apply Rgt_not_eq, Rmult_lt_0_compat; lra).
    f_equal. unfold Rdiv. ring. }
  assert (Hpav : p_av_at (with_w cfg 0) rho sigma (Fin c) =
                 Fin (bhp_550 cfg * sigma * quartic_R 0)).
  { unfold p_av_at, prop_efficiency_at. rewrite HJ, quartic_Fin.
    reflexivity. }
  assert (Hpreq : p_req_at (with_w cfg 0) rho (Fin c) = Fin 0).
  { unfold p_req_at. cbn [w area with_w].
    replace (2 * 0 / (area cfg * rho)) with 0 by (unfold Rdiv; ring).
    rewrite sqrt_Fin by lra. rewrite powr_Fin_pos by assumption.
    assert (Hcd : c_d_at (with_w cfg 0) (Fin c) =
                  Fin (drag_coefficient_R cfg c)).
    { unfold c_d_at. cbn [powi c_d0 e0 AR with_w]. rewrite div_Fin.
      - reflexivity.
      - apply Rgt_not_eq.
        apply Rmult_lt_0_compat; [apply Rmult_lt_0_compat; [lra |] |];
          assumption. }
    rewrite Hcd, div_Fin by (apply Rgt_not_eq, Rpower_pos).
    cbn [mul]. f_equal. ring. }
  assert (Hroc : roc_at (with_w cfg 0) rho sigma (Fin c) = NInf).
  { unfold roc_at. rewrite Hpav, Hpreq. cbn [sub opp add w with_w].
    unfold div. destruct (Req_dec_T 0 0) as [_ | Hne]; [| lra].
    rewrite Rsgn_neg; [reflexivity |].
    assert (Hq : quartic_R 0 < 0) by (unfold quartic_R; lra).
    assert (Hshp : 0 < bhp_550 cfg * sigma).
    { apply Rmult_lt_0_compat; [unfold bhp_550; lra | assumption]. }
    set (s := bhp_550 cfg * sigma) in *. set (q := quartic_R 0) in *.
    clearbody s q. nra. }
  repeat split; try assumption.
  unfold climb_angle_at, ratio_at. rewrite Hroc, Hv.
  cbn [div]. dec_R. reflexivity.
Qed.



(** *** Shaft power and altitude *)

Lemma bands_ratio_decreasing (k k' : nat) (rho sigma rho' sigma' : R) :
  (k < k')%nat ->
  nth_error bands k = Some (rho, sigma) ->
  nth_error bands k' = Some (rho', sigma') ->
  0 < sigma' < sigma.
Proof.
  rewrite bands_table. intros Hk H H'.
  do 4 (destruct k as [| k];
        [ do 4 (destruct k' as [| k'];
                [cbn [nth_error] in H, H'; try lia;
                 assert (sigma = snd (rho, sigma)) as -> by reflexivity;
                 assert (sigma' = snd (rho', sigma')) as -> by reflexivity;
                 match type of H with Some ?a = Some _ =>
                   replace (rho, sigma) with a by congruence end;
                 match type of H' with Some ?a = Some _ =>
                   replace (rho', sigma') with a by congruence end;
                 cbn [snd]; lra |]);
          destruct k'; discriminate |]).
  destruct k; discriminate.
Qed.



(** ** The spreadsheet viewer *)

(** *** The modal callback *)

(** The state of a modal after any run of callbacks depends only on its
    initial state and on the parity of the number of callbacks that saw a
    recorded click on either button: each of these flips the state,
    whichever button it was, and a callback with both counters at zero or
    [None] leaves it. *)
Theorem modal_state_is_parity (calls : list (option Z * option Z))
  (is_open : bool) :
  App.run_modal calls is_open =
  if Nat.even
       (length (filter (fun p => (App.truthy (fst p) || App.truthy (snd p))%bool)
                       calls))
  then is_open else negb is_open.
Proof.
  unfold App.run_modal. revert is_open.
  induction calls as [| [n1 n2] calls IH]; intros s; [reflexivity |].
  cbn [fold_left filter fst snd]. rewrite IH. unfold App.toggle_modal.
  destruct (App.truthy n1 || App.truthy n2)%bool; [| reflexivity].
  cbn [length]. rewrite Nat.even_succ, <- Nat.negb_even.
  destruct (Nat.even _), s; reflexivity.
Qed.

(** *** [format_data] *)

Section FrameTheorems.

Context {number other : Type}.
Variable format_3g : number -> String.string.


Lemma format_data_columns_full (df : App.DataFrame number other) :
  Forall (fun c =>
            exists l cells,
              c = App.ObjCol l cells /\ Forall (fun x => x <> None) cells)
         (App.columns (App.format_data format_3g df)).
Proof.
  unfold App.format_data, App.map_columns. cbn [App.columns].
  rewrite map_map. apply Forall_map, Forall_forall. intros c _.
  destruct c as [l cells | l cells]; cbn [App.format_column App.fillna_column];
    do 2 eexists; (split; [reflexivity |]).
  - rewrite map_map. apply Forall_map, Forall_forall.
    intros [n |] _; discriminate.
  - apply Forall_map, Forall_forall. intros [v |] _; discriminate.
Qed.


Lemma existsb_id_nth (l : list bool) (r : nat) :
  existsb (fun b => b) l = false -> nth r l false = false.
Proof.
  revert r. induction l as [| b l IH]; intros r H; [destruct r; reflexivity |].
  cbn [existsb] in H. apply Bool.orb_false_iff in H. destruct H as [Hb Hl].
  destruct r as [| r]; cbn [nth]; [exact Hb | apply IH, Hl].
Qed.

(** Dropping the columns without a value does not change which rows have
    one. *)
Lemma row_present_filter (cols : list (App.column number other)) (r : nat) :
  App.row_present (filter App.some_present cols) r = App.row_present cols r.
Proof.
  unfold App.row_present.
  induction cols as [| c cols IH]; [reflexivity |].
  cbn [filter existsb].
  destruct (App.some_present c) eqn:Hc; cbn [existsb]; rewrite IH.
  - reflexivity.
  - unfold App.some_present in Hc.
    rewrite (existsb_id_nth _ r Hc). reflexivity.
Qed.

Lemma select_length {A : Type} (mask : list bool) (l : list A) :
  length mask = length l ->
  length (App.select mask l) = length (filter (fun b => b) mask).
Proof.
  revert l. induction mask as [| b mask IH]; intros [| a l] H;
    try discriminate; [reflexivity |].
  cbn [App.select filter]. injection H as H.
  destruct b; cbn [length]; rewrite IH by exact H; reflexivity.
Qed.

Lemma select_map {A B : Type} (f : A -> B) (mask : list bool) (l : list A) :
  App.select mask (map f l) = map f (App.select mask l).
Proof.
  revert l. induction mask as [| b mask IH]; intros [| a l];
    try reflexivity.
  cbn [map App.select]. destruct b; cbn [map]; rewrite IH; reflexivity.
Qed.

Lemma present_select_rows (mask : list bool) (c : App.column number other) :
  App.present (App.select_rows mask c) = App.select mask (App.present c).
Proof.
  destruct c as [l cells | l cells]; cbn [App.select_rows App.present];
    rewrite select_map; reflexivity.
Qed.

Lemma present_rendered (c : App.column number other) :
  App.present (App.fillna_column (App.format_column format_3g c)) =
  map (fun _ => true) (App.present c).
Proof.
  destruct c as [l cells | l cells];
    cbn [App.format_column App.fillna_column App.present];
    rewrite !map_map; apply map_ext; intros [x |]; reflexivity.
Qed.

Lemma label_rendered (mask : list bool) (c : App.column number other) :
  App.label_of
    (App.fillna_column (App.format_column format_3g (App.select_rows mask c))) =
  App.label_of c.
Proof. destruct c; reflexivity. Qed.

Lemma filter_id_map {A : Type} (f : A -> bool) (l : list A) :
  length (filter (fun b => b) (map f l)) = length (filter f l).
Proof.
  induction l as [| a l IH]; [reflexivity |].
  cbn [map filter]. destruct (f a); cbn [length]; rewrite IH; reflexivity.
Qed.

Lemma format_data_kept (df : App.DataFrame number other) :
  App.well_formed df ->
  let mask := App.row_mask df in
  App.columns (App.format_data format_3g df) =
    map (fun c => App.fillna_column
                    (App.format_column format_3g (App.select_rows mask c)))
        (filter App.some_present (App.columns df)) /\
  map App.label_of (App.columns (App.format_data format_3g df)) =
    map App.label_of (filter App.some_present (App.columns df)) /\
  App.nrows (App.format_data format_3g df) =
    length (filter (App.row_present (App.columns df)) (seq 0 (App.nrows df))) /\
  App.well_formed (App.format_data format_3g df).
Proof.
  intros Hwf mask.
  assert (Hmask : App.row_mask (App.dropna_columns df) = mask).
  { unfold mask, App.row_mask, App.dropna_columns. cbn [App.columns App.nrows].
    apply map_ext. intros r. apply row_present_filter. }
  assert (Hcols : App.columns (App.format_data format_3g df) =
    map (fun c => App.fillna_column
                    (App.format_column format_3g (App.select_rows mask c)))
        (filter App.some_present (App.columns df))).
  { unfold App.format_data, App.map_columns, App.dropna_rows.
    cbn [App.columns]. rewrite Hmask. cbn [App.dropna_columns App.columns].
    rewrite !map_map. reflexivity. }
  assert (Hrows : App.nrows (App.format_data format_3g df) =
    length (filter (fun b => b) mask)).
  { unfold App.format_data, App.map_columns, App.dropna_rows.
    cbn [App.nrows]. rewrite Hmask. reflexivity. }
  split; [exact Hcols |]. split.
  { rewrite Hcols, map_map. apply map_ext. intros c. apply label_rendered. }
  split.
  { rewrite Hrows. unfold mask, App.row_mask. apply filter_id_map. }
  unfold App.well_formed. rewrite Hcols, Hrows.
  apply Forall_map, Forall_forall. intros c Hin.
  apply filter_In in Hin. destruct Hin as [Hin _].
  unfold App.well_formed in Hwf. rewrite Forall_forall in Hwf.
  specialize (Hwf c Hin). unfold App.height in *.
  rewrite present_rendered, length_map, present_select_rows.
  apply select_length. unfold mask, App.row_mask.
  rewrite length_map, length_seq. symmetry. exact Hwf.
Qed.

(** The shape of the result.  [format_data] keeps, in their order, the
    columns that have at least one value and the rows that have at least
    one value, both read on the frame it was given: the columns of the
    result are those columns restricted to those rows and rendered, with
    their labels; and the result is well formed. *)
Theorem format_data_shape (df : App.DataFrame number other) :
  App.well_formed df ->
  let mask := App.row_mask df in
  App.columns (App.format_data format_3g df) =
    map (fun c => App.fillna_column
                    (App.format_column format_3g (App.select_rows mask c)))
        (filter App.some_present (App.columns df)) /\
  map App.label_of (App.columns (App.format_data format_3g df)) =
    map App.label_of (filter App.some_present (App.columns df)) /\
  App.nrows (App.format_data format_3g df) =
    length (filter (App.row_present (App.columns df)) (seq 0 (App.nrows df))) /\
  App.well_formed (App.format_data format_3g df).
Proof. exact (format_data_kept df). Qed.

End FrameTheorems.

Lemma format_data_shape_witness :
  App.nrows (App.format_data Ids.str_Z Samples.sample_frame) = 2%nat /\
  length (App.columns (App.format_data Ids.str_Z Samples.sample_frame)) = 2%nat.
Proof.
  destruct (format_data_shape Ids.str_Z Samples.sample_frame)
    as (Hcols & _ & Hrows & _).
  - repeat constructor.
  - rewrite Hrows, Hcols. split; reflexivity.
Defined.

(** *** The two [dropna] steps leave nothing to drop *)

Lemma select_nil {A : Type} (mask : list bool) : App.select mask (@nil A) = [].
Proof. destruct mask as [| [|] mask]; reflexivity. Qed.

Lemma select_false {A : Type} (mask : list bool) (l : list A) :
  App.select (false :: mask) l = App.select mask (tl l).
Proof. destruct l; cbn [App.select tl]; [rewrite select_nil |]; reflexivity. Qed.

Lemma select_self (mask : list bool) :
  App.select mask mask = repeat true (length (filter (fun b => b) mask)).
Proof.
  induction mask as [| [|] mask IH]; cbn [App.select filter length repeat];
    [reflexivity | f_equal; exact IH | exact IH].
Qed.

Lemma select_all {A : Type} (l : list A) :
  App.select (repeat true (length l)) l = l.
Proof.
  induction l as [| a l IH]; [reflexivity |].
  cbn [length repeat App.select]. f_equal. exact IH.
Qed.

Lemma filter_repeat_true (k : nat) :
  length (filter (fun b => b) (repeat true k)) = k.
Proof.
  induction k as [| k IH]; [reflexivity |].
  cbn [repeat filter length]. f_equal. exact IH.
Qed.

Lemma filter_all {A : Type} (f : A -> bool) (l : list A) :
  (forall a, In a l -> f a = true) -> filter f l = l.
Proof.
  induction l as [| a l IH]; intros H; [reflexivity |].
  cbn [filter]. rewrite (H a (or_introl eq_refl)). f_equal.
  apply IH. intros b Hb. apply H. right. exact Hb.
Qed.

Lemma nth_map_seq {A : Type} (f : nat -> A) (n r : nat) (d : A) :
  (r < n)%nat -> nth r (map f (seq 0 n)) d = f r.
Proof.
  intros Hr. rewrite (nth_indep _ d (f 0%nat)) by (rewrite length_map, length_seq; exact Hr).
  rewrite map_nth, seq_nth by exact Hr. reflexivity.
Qed.

Lemma nth_succ_tl (l : list bool) (r : nat) :
  nth (S r) l false = nth r (tl l) false.
Proof. destruct l; [destruct r; reflexivity | reflexivity]. Qed.

Lemma some_row_tl (P : list (list bool)) (r : nat) :
  existsb (fun l => nth (S r) l false) P =
  existsb (fun l => nth r l false) (map (@tl bool) P).
Proof.
  induction P as [| l P IH]; [reflexivity |].
  cbn [existsb map]. rewrite IH, nth_succ_tl. reflexivity.
Qed.

Lemma map_seq_succ {A : Type} (f : nat -> A) (n : nat) :
  map f (seq 1 n) = map (fun r => f (S r)) (seq 0 n).
Proof. rewrite <- seq_shift, map_map. reflexivity. Qed.

Lemma some_row_head (mask : list bool) (P : list (list bool)) :
  Forall (fun l => l <> []) P ->
  existsb (fun l => nth 0 l false) (map (App.select (true :: mask)) P) =
  existsb (fun l => nth 0 l false) P.
Proof.
  induction 1 as [| l P Hl HP IH]; [reflexivity |].
  destruct l as [| a l]; [contradiction |].
  cbn [map existsb]. rewrite IH. reflexivity.
Qed.

(** Selecting rows commutes with asking which rows have a value. *)
Lemma some_row_select (mask : list bool) (P : list (list bool)) :
  Forall (fun l => length l = length mask) P ->
  map (fun r => existsb (fun l => nth r l false) (map (App.select mask) P))
      (seq 0 (length (filter (fun b => b) mask))) =
  App.select mask
    (map (fun r => existsb (fun l => nth r l false) P) (seq 0 (length mask))).
Proof.
  revert P. induction mask as [| b mask IH]; intros P HP; [reflexivity |].
  assert (HT : Forall (fun l => length l = length mask) (map (@tl bool) P)).
  { apply Forall_map. revert HP. apply Forall_impl.
    intros [| a l] H; [discriminate | injection H as H; exact H]. }
  specialize (IH _ HT).
  cbn [length seq map].
  rewrite (map_seq_succ (fun r => existsb (fun l => nth r l false) P)).
  rewrite (map_ext _ _ (some_row_tl P)).
  destruct b.
  - cbn [filter length seq map App.select]. f_equal.
    + apply some_row_head. revert HP. apply Forall_impl.
      intros [| a l] H; [discriminate | discriminate].
    + rewrite (map_seq_succ
                 (fun r => existsb (fun l => nth r l false)
                             (map (App.select (true :: mask)) P))).
      rewrite <- IH. apply map_ext. intros r.
      rewrite some_row_tl, !map_map. f_equal.
      apply map_ext_in. intros l Hl.
      rewrite Forall_forall in HP. specialize (HP l Hl).
      destruct l as [| a l]; [discriminate | reflexivity].
  - cbn [filter App.select]. rewrite <- IH. apply map_ext. intros r.
    f_equal. rewrite !map_map. apply map_ext. intros l. apply select_false.
Qed.

Lemma some_present_select (mask l : list bool) :
  length mask = length l ->
  (forall r, nth r l false = true -> nth r mask false = true) ->
  existsb (fun b => b) (App.select mask l) = existsb (fun b => b) l.
Proof.
  revert l. induction mask as [| b mask IH]; intros [| a l] Hlen H;
    try discriminate; [reflexivity |].
  injection Hlen as Hlen.
  assert (IH' : existsb (fun b => b) (App.select mask l) =
                existsb (fun b => b) l).
  { apply IH; [exact Hlen |]. intros r Hr. apply (H (S r)). exact Hr. }
  cbn [App.select existsb]. destruct a.
  - rewrite (H 0%nat eq_refl : b = true). reflexivity.
  - destruct b; cbn [existsb]; exact IH'.
Qed.

Section FrameIdempotence.

Context {number other : Type}.

Lemma row_present_matrix (cols : list (App.column number other)) (r : nat) :
  App.row_present cols r =
  existsb (fun l => nth r l false) (map App.present cols).
Proof.
  unfold App.row_present.
  induction cols as [| c cols IH]; [reflexivity |].
  cbn [existsb map]. rewrite IH. reflexivity.
Qed.

Lemma select_rows_all (c : App.column number other) :
  App.select_rows (repeat true (App.height c)) c = c.
Proof.
  unfold App.height.
  destruct c as [l cells | l cells]; cbn [App.present App.select_rows];
    rewrite length_map, select_all; reflexivity.
Qed.

(** What the two [dropna] steps return has no column and no row left
    without a value: on a well-formed frame, applying either step again
    changes nothing. *)
Theorem dropna_steps_are_final (df : App.DataFrame number other) :
  App.well_formed df ->
  let kept := App.dropna_rows (App.dropna_columns df) in
  App.well_formed kept /\
  App.dropna_columns kept = kept /\
  App.dropna_rows kept = kept.
Proof.
  intros Hwf kept.
  set (cols := filter App.some_present (App.columns df)).
  set (n := App.nrows df).
  set (mask := map (App.row_present cols) (seq 0 n)).
  assert (Hkept : kept =
    {| App.nrows := length (filter (fun b => b) mask);
       App.columns := map (App.select_rows mask) cols |}) by reflexivity.
  clearbody kept. subst kept.
  assert (Hlen : length mask = n).
  { unfold mask. rewrite length_map, length_seq. reflexivity. }
  assert (Hheight : forall c, In c cols -> length (App.present c) = n).
  { intros c Hc. apply filter_In in Hc. destruct Hc as [Hc _].
    unfold App.well_formed in Hwf. rewrite Forall_forall in Hwf.
    apply (Hwf c Hc). }
  assert (Hwf' : App.well_formed
            {| App.nrows := length (filter (fun b => b) mask);
               App.columns := map (App.select_rows mask) cols |}).
  { unfold App.well_formed. cbn [App.columns App.nrows].
    apply Forall_map, Forall_forall. intros c Hc. unfold App.height.
    rewrite present_select_rows. apply select_length.
    rewrite Hlen. symmetry. apply Hheight, Hc. }
  split; [exact Hwf' |]. split.
  - unfold App.dropna_columns. cbn [App.columns App.nrows].
    f_equal. apply filter_all. intros c' Hc'.
    apply in_map_iff in Hc'. destruct Hc' as (c & <- & Hc).
    unfold App.some_present. rewrite present_select_rows.
    rewrite some_present_select.
    + apply filter_In in Hc. apply Hc.
    + rewrite Hlen. symmetry. apply Hheight, Hc.
    + intros r Hr.
      assert (Hrn : (r < n)%nat).
      { destruct (Nat.lt_ge_cases r n) as [Hlt | Hge]; [exact Hlt |].
        rewrite nth_overflow in Hr by (rewrite (Hheight c Hc); exact Hge).
        discriminate. }
      unfold mask. rewrite nth_map_seq by exact Hrn.
      unfold App.row_present. apply existsb_exists.
      exists c. split; assumption.
  - assert (Hmask : App.row_mask
                      {| App.nrows := length (filter (fun b => b) mask);
                         App.columns := map (App.select_rows mask) cols |} =
                    repeat true (length (filter (fun b => b) mask))).
    { unfold App.row_mask. cbn [App.columns App.nrows].
      rewrite (map_ext _ _ (row_present_matrix (map (App.select_rows mask) cols))).
      rewrite map_map.
      rewrite (map_ext (fun c => App.present (App.select_rows mask c))
                       (fun c => App.select mask (App.present c))
                       (present_select_rows mask)).
      rewrite <- (map_map App.present (App.select mask)).
      rewrite some_row_select.
      + rewrite Hlen.
        rewrite <- (map_ext _ _ (row_present_matrix cols)).
        fold mask. apply select_self.
      + apply Forall_map, Forall_forall. intros c Hc.
        rewrite Hlen. apply Hheight, Hc. }
    unfold App.dropna_rows. rewrite Hmask, filter_repeat_true.
    cbn [App.columns]. f_equal.
    transitivity (map (fun c => c) (map (App.select_rows mask) cols));
      [| apply map_id].
    apply map_ext_in. intros c' Hc'.
    unfold App.well_formed in Hwf'. rewrite Forall_forall in Hwf'.
    cbn [App.columns App.nrows] in Hwf'.
    rewrite <- (Hwf' c' Hc'). apply select_rows_all.
Qed.

End FrameIdempotence.

Lemma dropna_steps_are_final_witness :
  App.dropna_rows
    (App.dropna_rows (App.dropna_columns Samples.sample_frame)) =
  App.dropna_rows (App.dropna_columns Samples.sample_frame).
Proof.
  apply (dropna_steps_are_final Samples.sample_frame).
  repeat constructor.
Defined.

(** *** [create_table] *)

Section TableTheorems.

Context {number other : Type}.
Variable format_3g : number -> String.string.


End TableTheorems.

